(** * split_video: the JPG frame extractor of [main.py]

    A shallow embedding of [JPGVideoFrameExtractor.extract_frames] and
    [JPGVideoFrameExtractor.extract_by_time_intervals], of [main] once
    the command line is parsed, and of the [__main__] block.

    - Python [int] is [Z]; Python [float] is an IEEE 754 binary64 value,
      taken from the Standard Library's executable specification
      [spec_float] (precision 53, [emax] 1024).
    - Exceptions are results: a computation yields [Ok v] or [Raise e].
    - The effects of the program are calls into the outside world
      ([print], [os.makedirs], [cv2.VideoCapture], [cv2.imwrite], [tqdm]).
      A computation carries the trace of these calls, in program order; the
      trace up to a raised exception is kept. "The files written" are the
      [cv2.imwrite] calls.
    - A path that is empty or holds a NUL character names nothing on any
      file system: [os.path.exists] answers [False] for it and
      [os.makedirs] raises ([FileNotFoundError] for the empty path,
      [ValueError] for a NUL character), as in Python 3.8 and later. On
      every other path the calls are taken to succeed: a directory is
      created, an image is written, a line is printed.
    - What the outside world answers ([os.path.exists], whether a capture
      opens, what it reports and decodes) is a read-only [World].
    - Paths are joined as [posixpath.join] does. *)

From Stdlib Require Import ZArith List String Ascii Bool Lia SpecFloat.
From Stdlib Require Import DecimalString DecimalN DecimalPos DecimalFacts.
From Stdlib Require Import Relation_Operators.
Import ListNotations.

Open Scope string_scope.
Open Scope list_scope.
Open Scope Z_scope.

(** ** Exceptions and results *)

Inductive exn : Type :=
| ZeroDivisionError
| OverflowError
| ValueError
| FileNotFoundError.

Inductive Res (A : Type) : Type :=
| Ok (a : A)
| Raise (e : exn).

Arguments Ok {A} a.
Arguments Raise {A} e.

(** ** Python floats *)

Module PyFloat.

Definition float : Type := spec_float.

Definition prec : Z := 53.
Definition emax : Z := 1024.

Definition zero : float := S754_zero false.

(** [float(n)] for an [int] that fits: round to nearest, ties to even.
    Too large an [int] rounds to an infinity here; [float_of_int] turns
    that into Python's [OverflowError]. *)
Definition of_Z (n : Z) : float := binary_normalize prec emax n 0 false.

Definition ltb (x y : float) : bool := SFltb x y.
Definition eqb (x y : float) : bool := SFeqb x y.
Definition mul (x y : float) : float := SFmul prec emax x y.
Definition div (x y : float) : float := SFdiv prec emax x y.

(** [bool(x)] is [x != 0.0]: both zeros are false, NaN is true. *)
Definition truthy (x : float) : bool := negb (eqb x zero).

(** [x] is a binary64 value: a mantissa of at most 53 bits, in canonical
    position, and an exponent in range. *)
Definition valid (x : float) : bool := valid_binary prec emax x.

End PyFloat.

Abbreviation float := PyFloat.float.

(** [float(n)], raising when [n] is too large for a binary64. *)
Definition float_of_int (n : Z) : Res float :=
  match PyFloat.of_Z n with
  | S754_infinity _ => Raise OverflowError
  | f => Ok f
  end.

(** [int(x)] on a float: truncation toward zero; [int(inf)] raises
    [OverflowError] and [int(nan)] raises [ValueError]. *)
Definition py_int (x : float) : Res Z :=
  match x with
  | S754_zero _ => Ok 0
  | S754_infinity _ => Raise OverflowError
  | S754_nan => Raise ValueError
  | S754_finite s m e => Ok (cond_Zopp s (Z.shiftl (Zpos m) e))
  end.

(** [x / y] on floats: Python raises on a zero divisor instead of
    returning an infinity or NaN. *)
Definition py_fdiv (x y : float) : Res float :=
  if PyFloat.eqb y PyFloat.zero then Raise ZeroDivisionError
  else Ok (PyFloat.div x y).

(** [n / y] with [n] an [int] and [y] a [float]: [n] is converted first. *)
Definition py_truediv_int_float (n : Z) (y : float) : Res float :=
  match float_of_int n with
  | Ok x => py_fdiv x y
  | Raise e => Raise e
  end.

(** [a // b] and [a % b] on ints: floor division, the remainder takes the
    sign of the divisor, a zero divisor raises. [Z.div] and [Z.modulo]
    follow the same convention for a non-zero divisor. *)
Definition py_floordiv (a b : Z) : Res Z :=
  if b =? 0 then Raise ZeroDivisionError else Ok (a / b).

Definition py_mod (a b : Z) : Res Z :=
  if b =? 0 then Raise ZeroDivisionError else Ok (a mod b).

(** A Python number as [extract_by_time_intervals] receives one for
    [interval_seconds]: the default [1] is an [int], a caller may pass a
    [float]. *)
Inductive number : Type :=
| PyInt (z : Z)
| PyFlt (f : float).

(** [x * n] with [x] a float. *)
Definition py_mul_float (x : float) (n : number) : Res float :=
  match n with
  | PyInt z =>
      match float_of_int z with
      | Ok y => Ok (PyFloat.mul x y)
      | Raise e => Raise e
      end
  | PyFlt y => Ok (PyFloat.mul x y)
  end.

(** ** String formatting *)

(** [n] copies of the character ["0"]. *)
Fixpoint zeros (n : nat) : string :=
  match n with
  | O => EmptyString
  | S k => String "0"%char (zeros k)
  end.

(** The decimal digits of [|n|], without sign. *)
Definition digits (n : Z) : string :=
  NilZero.string_of_uint (N.to_uint (Z.abs_N n)).

(** The format specification [06d]: sign first, then zeros up to a total
    width of six, then the digits; a longer number is not truncated. *)
Definition format_06d (n : Z) : string :=
  let sign := if n <? 0 then "-" else "" in
  let d := digits n in
  (sign ++ zeros (6 - String.length sign - String.length d) ++ d)%string.

(** [os.path.join(a, b)] on a POSIX system, for two components. *)
Definition ends_with_slash (a : string) : bool :=
  match String.get (String.length a - 1) a with
  | Some c => Ascii.eqb c "/"%char
  | None => false
  end.

Definition path_join (a b : string) : string :=
  if String.prefix "/" b then b
  else if (String.eqb a "") || ends_with_slash a then (a ++ b)%string
  else (a ++ "/" ++ b)%string.

Definition frame_filename (saved_count : Z) : string :=
  ("frame_" ++ format_06d saved_count ++ ".jpg")%string.

(** ** Paths that name nothing *)

Fixpoint has_nul (p : string) : bool :=
  match p with
  | EmptyString => false
  | String c rest => Ascii.eqb c "000"%char || has_nul rest
  end.

(** A path the operating system accepts: not empty, no NUL character. *)
Definition valid_path (p : string) : bool :=
  negb (String.eqb p "") && negb (has_nul p).

(** What [os.makedirs(d)] does on a path that does not exist: it raises
    for a path that names nothing, and creates the directory otherwise. *)
Definition makedirs_result (d : string) : Res unit :=
  if String.eqb d "" then Raise FileNotFoundError
  else if has_nul d then Raise ValueError
  else Ok tt.

(** ** The outside world and the trace of calls into it *)

Section Extractor.

(** A decoded image, as [cap.read()] returns it. *)
Context {Frame : Type}.

(** What an opened [cv2.VideoCapture] reports and decodes.
    [CAP_PROP_FPS] is the double that [cap.get(cv2.CAP_PROP_FPS)] returns;
    the three integer properties hold the values of [int(cap.get(...))];
    [frames] are the frames that successive [cap.read()] calls return
    before [ret] becomes [False]. [CAP_PROP_FRAME_COUNT] is the
    container's metadata: nothing ties it to [length frames]. Being the
    integer part of a double it converts back to a float
    ([py_int_representable]); the record does not enforce this, the
    theorems that need it say so. *)
Record Video : Type := {
  CAP_PROP_FPS : float;
  CAP_PROP_FRAME_COUNT : Z;
  CAP_PROP_FRAME_WIDTH : Z;
  CAP_PROP_FRAME_HEIGHT : Z;
  frames : list Frame
}.

(** [on_disk] tells which paths name a file or directory; [videos p] is
    [Some v] when [cv2.VideoCapture(p).isOpened()] holds. *)
Record World : Type := {
  on_disk : string -> bool;
  videos : string -> option Video
}.

(** [os.path.exists]: [False] for a path that names nothing, the file
    system's answer otherwise. *)
Definition path_exists (w : World) (p : string) : bool :=
  valid_path p && on_disk w p.

(** One constructor per [print] of the source, carrying the values that
    the f-string interpolates. *)
Inductive line : Type :=
| ErrNotFound (video_path : string)
| WarnQuality
| ErrCannotOpen
| InfoHeader
| InfoResolution (w h : Z)
| InfoFps (original_fps : float)
| InfoTotal (total_frames : Z)
| InfoDuration (seconds : float)
| InfoFormat (jpg_quality : Z)
| SettingsHeader
| SettingsInterval (frame_interval : Z)
| SettingsEstimated (estimated_frames : Z)
| DoneHeader
| DoneSaved (saved_count : Z)
| DoneOutputDir (output_dir : string).

Inductive event : Type :=
| Print (l : line)
| MakeDirs (dir : string)
| VideoCapture (path : string)
| ImWrite (filepath : string) (frame : Frame) (jpg_quality : Z)
| Tqdm (total : Z)
| PbarUpdate (n : Z)
| PbarClose
| CapRelease.

Definition trace : Type := list event.

(** A computation: its result and the calls it made. *)
Definition M (A : Type) : Type := Res A * trace.

Definition ret {A} (a : A) : M A := (Ok a, []).

Definition bind {A B} (m : M A) (f : A -> M B) : M B :=
  match m with
  | (Ok a, t) => let (r, t') := f a in (r, t ++ t')
  | (Raise e, t) => (Raise e, t)
  end.

Definition emit (ev : event) : M unit := (Ok tt, [ev]).

Definition lift {A} (r : Res A) : M A := (r, []).

Definition print (l : line) : M unit := emit (Print l).

(** [os.makedirs(d)]: the call is made, and raises or returns. *)
Definition os_makedirs (d : string) : M unit :=
  bind (emit (MakeDirs d)) (fun _ => lift (makedirs_result d)).

Notation "x <- m ;; k" := (bind m (fun x => k))
  (at level 61, m at next level, right associativity).
Notation "m ;; k" := (bind m (fun _ => k))
  (at level 61, right associativity).

(** *** Projections of a trace *)

(** The [cv2.imwrite] calls: file path, image and JPEG quality. *)
Fixpoint written (t : trace) : list (string * Frame * Z) :=
  match t with
  | [] => []
  | ImWrite p f q :: t' => (p, f, q) :: written t'
  | _ :: t' => written t'
  end.

Fixpoint stdout (t : trace) : list line :=
  match t with
  | [] => []
  | Print l :: t' => l :: stdout t'
  | _ :: t' => stdout t'
  end.

Definition written_paths (t : trace) : list string :=
  map (fun w => fst (fst w)) (written t).

Definition written_qualities (t : trace) : list Z :=
  map snd (written t).

(** *** The frame loop (lines 78-95) *)

Record Locals : Type := {
  frame_count : Z;
  saved_count : Z
}.

Inductive control : Type := Continue | Break.

(** [max_frames and saved_count >= max_frames] (line 81). *)
Definition limit_reached (max_frames : option Z) (saved : Z) : bool :=
  match max_frames with
  | Some m => negb (m =? 0) && (saved >=? m)
  | None => false
  end.

(** One iteration of [while True] once [cap.read()] has returned a
    frame ([ret] true). *)
Definition loop_body (output_dir : string) (frame_interval : Z)
    (max_frames : option Z) (jpg_quality : Z)
    (frame : Frame) (l : Locals) : M (control * Locals) :=
  if limit_reached max_frames (saved_count l) then ret (Break, l)
  else
    r <- lift (py_mod (frame_count l) frame_interval) ;;
    l' <- (if r =? 0 then
             let filename := frame_filename (saved_count l) in
             let filepath := path_join output_dir filename in
             emit (ImWrite filepath frame jpg_quality) ;;
             emit (PbarUpdate 1) ;;
             ret {| frame_count := frame_count l;
                    saved_count := saved_count l + 1 |}
           else ret l) ;;
    ret (Continue, {| frame_count := frame_count l' + 1;
                      saved_count := saved_count l' |}).

(** The loop over the frames the capture still holds: [cap.read()] takes
    the next one, and reports [ret] false when none is left. *)
Fixpoint while_loop (output_dir : string) (frame_interval : Z)
    (max_frames : option Z) (jpg_quality : Z)
    (cap : list Frame) (l : Locals) : M Locals :=
  match cap with
  | [] => ret l
  | frame :: cap' =>
      cl <- loop_body output_dir frame_interval max_frames jpg_quality
                      frame l ;;
      match fst cl with
      | Break => ret (snd cl)
      | Continue =>
          while_loop output_dir frame_interval max_frames jpg_quality
                     cap' (snd cl)
      end
  end.

(** *** Lines 57-59: the actual frame interval *)
Definition actual_frame_interval (original_fps : float)
    (frame_interval : Z) (target_fps : option float) : Res Z :=
  match target_fps with
  | Some t =>
      if PyFloat.truthy t && PyFloat.ltb t original_fps then
        match py_fdiv original_fps t with
        | Ok q =>
            match py_int q with
            | Ok n => Ok (Z.max 1 n)
            | Raise e => Raise e
            end
        | Raise e => Raise e
        end
      else Ok frame_interval
  | None => Ok frame_interval
  end.

(** *** [extract_frames] (lines 10-103) *)
Definition extract_frames (w : World) (video_path output_dir : string)
    (frame_interval : Z) (target_fps : option float)
    (max_frames : option Z) (jpg_quality : Z) : M bool :=
  if negb (path_exists w video_path) then
    print (ErrNotFound video_path) ;;
    ret false
  else
    jpg_quality <- (if (jpg_quality <? 1) || (jpg_quality >? 100) then
                      print WarnQuality ;;
                      ret 95
                    else ret jpg_quality) ;;
    (if negb (path_exists w output_dir) then os_makedirs output_dir
     else ret tt) ;;
    emit (VideoCapture video_path) ;;
    match videos w video_path with
    | None =>
        print ErrCannotOpen ;;
        ret false
    | Some cap =>
        let original_fps := CAP_PROP_FPS cap in
        let total_frames := CAP_PROP_FRAME_COUNT cap in
        let width := CAP_PROP_FRAME_WIDTH cap in
        let height := CAP_PROP_FRAME_HEIGHT cap in
        print InfoHeader ;;
        print (InfoResolution width height) ;;
        print (InfoFps original_fps) ;;
        print (InfoTotal total_frames) ;;
        seconds <- lift (py_truediv_int_float total_frames original_fps) ;;
        print (InfoDuration seconds) ;;
        print (InfoFormat jpg_quality) ;;
        frame_interval <-
          lift (actual_frame_interval original_fps frame_interval
                                      target_fps) ;;
        estimated_frames <- lift (py_floordiv total_frames frame_interval) ;;
        let estimated_frames :=
          match max_frames with
          | Some m => if m =? 0 then estimated_frames
                      else Z.min estimated_frames m
          | None => estimated_frames
          end in
        print SettingsHeader ;;
        print (SettingsInterval frame_interval) ;;
        print (SettingsEstimated estimated_frames) ;;
        emit (Tqdm estimated_frames) ;;
        l <- while_loop output_dir frame_interval max_frames jpg_quality
                        (frames cap)
                        {| frame_count := 0; saved_count := 0 |} ;;
        emit PbarClose ;;
        emit CapRelease ;;
        print DoneHeader ;;
        print (DoneSaved (saved_count l)) ;;
        print (DoneOutputDir output_dir) ;;
        ret true
    end.

(** *** [extract_by_time_intervals] (lines 105-125) *)
Definition extract_by_time_intervals (w : World)
    (video_path output_dir : string) (interval_seconds : number)
    (jpg_quality : Z) : M bool :=
  emit (VideoCapture video_path) ;;
  match videos w video_path with
  | None =>
      print ErrCannotOpen ;;
      ret false
  | Some cap =>
      let fps := CAP_PROP_FPS cap in
      x <- lift (py_mul_float fps interval_seconds) ;;
      n <- lift (py_int x) ;;
      let frame_interval := Z.max 1 n in
      extract_frames w video_path output_dir frame_interval None None
                     jpg_quality
  end.

End Extractor.

Arguments Video : clear implicits.
Arguments World : clear implicits.
Arguments path_exists : simpl never.
Arguments valid_path : simpl never.
Arguments makedirs_result : simpl never.
Arguments event : clear implicits.
Arguments trace : clear implicits.
Arguments M : clear implicits.

(** * Specification-side vocabulary *)

(** The quality that reaches the encoder (lines 29-31). *)
Definition effective_quality (jpg_quality : Z) : Z :=
  if (jpg_quality <? 1) || (jpg_quality >? 100) then 95 else jpg_quality.

(** [n] consecutive integers from [start]. *)
Fixpoint count_from (start : Z) (n : nat) : list Z :=
  match n with
  | O => []
  | S k => start :: count_from (start + 1) k
  end.

(** The paths [frame_000000.jpg], [frame_000001.jpg], ... under [dir]. *)
Definition sequential_paths (dir : string) (start : Z) (n : nat) :
    list string :=
  map (fun i => path_join dir (frame_filename i)) (count_from start n).

(** The counters when the loop is entered (lines 72-73). *)
Definition start : Locals := {| frame_count := 0; saved_count := 0 |}.

(** Number of multiples of [k] among [0 .. n-1], for [k >= 1]. *)
Definition ceil_div (n k : Z) : Z := (n + k - 1) / k.

(** ** The frame limit *)

(** The cap that line 81 enforces: none for [None] and for [0]. *)
Definition capped (max_frames : option Z) (n : Z) : Z :=
  match max_frames with
  | Some m => if m =? 0 then n else Z.min n m
  | None => n
  end.


(** ** Reading file names back *)

(** Reading a padded number back: leading zeros do not change the value. *)
Definition parse_decimal (s : string) : option N :=
  option_map N.of_uint (NilEmpty.uint_of_string s).

(** ** One iteration of the loop, by cases *)

Section LoopShape.

Context {Frame : Type}.
Variables (output_dir : string) (frame_interval : Z)
          (max_frames : option Z) (jpg_quality : Z).

(** The four ways through one iteration. *)
Inductive body_spec (frame : Frame) (l : Locals) :
    M Frame (control * Locals) -> Prop :=
| BodyBreak :
    limit_reached max_frames (saved_count l) = true ->
    body_spec frame l (Ok (Break, l), [])
| BodyZero :
    limit_reached max_frames (saved_count l) = false ->
    frame_interval = 0 ->
    body_spec frame l (Raise ZeroDivisionError, [])
| BodySave :
    limit_reached max_frames (saved_count l) = false ->
    frame_interval <> 0 ->
    frame_count l mod frame_interval = 0 ->
    body_spec frame l
      (Ok (Continue, {| frame_count := frame_count l + 1;
                        saved_count := saved_count l + 1 |}),
       [ImWrite (path_join output_dir (frame_filename (saved_count l)))
                frame jpg_quality;
        PbarUpdate 1])
| BodySkip :
    limit_reached max_frames (saved_count l) = false ->
    frame_interval <> 0 ->
    frame_count l mod frame_interval <> 0 ->
    body_spec frame l
      (Ok (Continue, {| frame_count := frame_count l + 1;
                        saved_count := saved_count l |}), []).

End LoopShape.

(** ** The loop as a transition system *)

(** The state at the head of the loop: the frames the capture still holds,
    the two counters, and the calls made so far. *)
Definition loop_state (Frame : Type) : Type :=
  (list Frame * Locals * trace Frame)%type.

Definition ls_saved {Frame} (s : loop_state Frame) : Z :=
  saved_count (snd (fst s)).

Definition ls_files {Frame} (s : loop_state Frame) : nat :=
  List.length (written (snd s)).

(** One iteration that comes back to the head of the loop. *)
Inductive loop_step {Frame : Type} (output_dir : string) (frame_interval : Z)
    (max_frames : option Z) (jpg_quality : Z) :
    loop_state Frame -> loop_state Frame -> Prop :=
| LoopIteration frame cap l l' t t' :
    loop_body output_dir frame_interval max_frames jpg_quality frame l
      = (Ok (Continue, l'), t') ->
    loop_step output_dir frame_interval max_frames jpg_quality
              (frame :: cap, l, t) (cap, l', t ++ t').

Definition loop_reaches {Frame : Type} (output_dir : string)
    (frame_interval : Z) (max_frames : option Z) (jpg_quality : Z) :
    loop_state Frame -> loop_state Frame -> Prop :=
  clos_refl_trans_1n _
    (loop_step output_dir frame_interval max_frames jpg_quality).

(** ** The shape of a run of [extract_frames] *)

Section RunShape.

Context {Frame : Type}.
Variables (w : World Frame) (video_path output_dir : string)
          (frame_interval : Z) (target_fps : option float)
          (max_frames : option Z) (jpg_quality : Z).

(** Lines 28-35 when [os.makedirs] raises: quality warning and the call. *)
Definition makedirs_trace : trace Frame :=
  (if (jpg_quality <? 1) || (jpg_quality >? 100) then [Print WarnQuality]
   else [])
  ++ [MakeDirs output_dir].

(** Lines 28-42: quality warning, directory creation, opening the video. *)
Definition head_trace : trace Frame :=
  (if (jpg_quality <? 1) || (jpg_quality >? 100) then [Print WarnQuality]
   else [])
  ++ (if path_exists w output_dir then [] else [MakeDirs output_dir])
  ++ [VideoCapture video_path].

(** Lines 50-53. *)
Definition info_trace (cap : Video Frame) : trace Frame :=
  [Print InfoHeader;
   Print (InfoResolution (CAP_PROP_FRAME_WIDTH cap)
                         (CAP_PROP_FRAME_HEIGHT cap));
   Print (InfoFps (CAP_PROP_FPS cap));
   Print (InfoTotal (CAP_PROP_FRAME_COUNT cap))].

(** Lines 54-55. *)
Definition format_trace (seconds : float) : trace Frame :=
  [Print (InfoDuration seconds);
   Print (InfoFormat (effective_quality jpg_quality))].

(** Lines 61-76. *)
Definition settings_trace (cap : Video Frame) (k : Z) : trace Frame :=
  let estimated := capped max_frames (CAP_PROP_FRAME_COUNT cap / k) in
  [Print SettingsHeader;
   Print (SettingsInterval k);
   Print (SettingsEstimated estimated);
   Tqdm estimated].

(** Lines 97-102. *)
Definition footer_trace (l : Locals) : trace Frame :=
  [PbarClose; CapRelease;
   Print DoneHeader;
   Print (DoneSaved (saved_count l));
   Print (DoneOutputDir output_dir)].

Inductive run_spec : M Frame bool -> Prop :=
| RunMissing :
    path_exists w video_path = false ->
    run_spec (Ok false, [Print (ErrNotFound video_path)])
| RunUnopened :
    path_exists w video_path = true ->
    valid_path output_dir = true ->
    videos w video_path = None ->
    run_spec (Ok false, head_trace ++ [Print ErrCannotOpen])
| RunDurationRaises cap e :
    path_exists w video_path = true ->
    valid_path output_dir = true ->
    videos w video_path = Some cap ->
    py_truediv_int_float (CAP_PROP_FRAME_COUNT cap) (CAP_PROP_FPS cap)
      = Raise e ->
    run_spec (Raise e, head_trace ++ info_trace cap)
| RunIntervalRaises cap seconds e :
    path_exists w video_path = true ->
    valid_path output_dir = true ->
    videos w video_path = Some cap ->
    py_truediv_int_float (CAP_PROP_FRAME_COUNT cap) (CAP_PROP_FPS cap)
      = Ok seconds ->
    actual_frame_interval (CAP_PROP_FPS cap) frame_interval target_fps
      = Raise e ->
    run_spec (Raise e, head_trace ++ info_trace cap ++ format_trace seconds)
| RunZeroInterval cap seconds :
    path_exists w video_path = true ->
    valid_path output_dir = true ->
    videos w video_path = Some cap ->
    py_truediv_int_float (CAP_PROP_FRAME_COUNT cap) (CAP_PROP_FPS cap)
      = Ok seconds ->
    actual_frame_interval (CAP_PROP_FPS cap) frame_interval target_fps
      = Ok 0 ->
    run_spec (Raise ZeroDivisionError,
              head_trace ++ info_trace cap ++ format_trace seconds)
| RunLoop cap seconds k l t :
    path_exists w video_path = true ->
    valid_path output_dir = true ->
    videos w video_path = Some cap ->
    py_truediv_int_float (CAP_PROP_FRAME_COUNT cap) (CAP_PROP_FPS cap)
      = Ok seconds ->
    actual_frame_interval (CAP_PROP_FPS cap) frame_interval target_fps
      = Ok k ->
    k <> 0 ->
    while_loop output_dir k max_frames (effective_quality jpg_quality)
               (frames cap) start = (Ok l, t) ->
    run_spec (Ok true,
              head_trace ++ info_trace cap ++ format_trace seconds
              ++ settings_trace cap k ++ t ++ footer_trace l)
| RunMakedirsRaises e :
    path_exists w video_path = true ->
    valid_path output_dir = false ->
    makedirs_result output_dir = Raise e ->
    run_spec (Raise e, makedirs_trace).

End RunShape.

(** ** Sample inputs *)

Module Sample.

(** A clip of [n] frames, each frame standing for its own index. *)
Definition clip (n : nat) (rate : float) : Video nat :=
  {| CAP_PROP_FPS := rate;
     CAP_PROP_FRAME_COUNT := Z.of_nat n;
     CAP_PROP_FRAME_WIDTH := 640;
     CAP_PROP_FRAME_HEIGHT := 480;
     frames := seq 0 n |}.

(** A file system holding the video ["video.avi"] and a file ["notes.txt"]
    that no capture can open. *)
Definition world (n : nat) (rate : float) : World nat :=
  {| on_disk := fun p => String.eqb p "video.avi"
                         || String.eqb p "notes.txt";
     videos := fun p => if String.eqb p "video.avi" then Some (clip n rate)
                        else None |}.

Definition fps30 : float := PyFloat.of_Z 30.

End Sample.

(** [float(n)] does not overflow. *)
Definition representable (n : Z) : bool :=
  match float_of_int n with
  | Ok _ => true
  | Raise _ => false
  end.

(** ** Further projections of a trace *)

(** The images handed to [cv2.imwrite], in order. *)
Definition written_frames {Frame : Type} (t : trace Frame) : list Frame :=
  map (fun w => snd (fst w)) (written t).

Definition is_release {Frame : Type} (ev : event Frame) : bool :=
  match ev with CapRelease => true | _ => false end.

Definition is_open {Frame : Type} (ev : event Frame) : bool :=
  match ev with VideoCapture _ => true | _ => false end.

Definition is_makedirs {Frame : Type} (ev : event Frame) : bool :=
  match ev with MakeDirs _ => true | _ => false end.

Definition is_tqdm {Frame : Type} (ev : event Frame) : bool :=
  match ev with Tqdm _ => true | _ => false end.

Definition is_pbar_update {Frame : Type} (ev : event Frame) : bool :=
  match ev with PbarUpdate _ => true | _ => false end.

Definition is_pbar_close {Frame : Type} (ev : event Frame) : bool :=
  match ev with PbarClose => true | _ => false end.

(** How many calls of one kind a trace holds. *)
Definition count_event {Frame : Type} (kind : event Frame -> bool)
    (t : trace Frame) : nat :=
  List.length (filter kind t).

(** What one saved frame adds to the trace (lines 90 and 93). *)
Definition save_events {Frame : Type} (w : string * Frame * Z) :
    trace Frame :=
  [ImWrite (fst (fst w)) (snd (fst w)) (snd w); PbarUpdate 1].

(** The frames whose index, counted from [i], is a multiple of [k]. *)
Fixpoint select_from {Frame : Type} (k i : Z) (frames : list Frame) :
    list Frame :=
  match frames with
  | [] => []
  | f :: rest =>
      if i mod k =? 0 then f :: select_from k (i + 1) rest
      else select_from k (i + 1) rest
  end.

(** ** The command line and the script *)

Module Cli.

(** The [Namespace] that [parser.parse_args()] returns (lines 128-137):
    one field per [add_argument]. Parsing itself is [argparse]'s. *)
Record Namespace : Type := {
  video_path : string;
  output : string;
  interval : Z;
  fps : option float;
  max_frames : option Z;
  quality : Z
}.

(** The namespace when only the positional argument is given: every
    option at the default its [add_argument] declares. *)
Definition defaults (path : string) : Namespace :=
  {| video_path := path;
     output := "jpg_frames";
     interval := 1;
     fps := None;
     max_frames := None;
     quality := 95 |}.

(** [main] once the arguments are parsed (lines 139-147): the boolean that
    [extract_frames] returns is dropped, [main] returns [None]. *)
Definition main {Frame : Type} (w : World Frame) (args : Namespace) :
    M Frame unit :=
  bind (extract_frames w (video_path args) (output args) (interval args)
                       (fps args) (max_frames args) (quality args))
       (fun _ => ret tt).

(** The [__main__] block (lines 149-154): it does not call [main]; it
    runs one fixed extraction and drops the result. *)
Definition script {Frame : Type} (w : World Frame) : M Frame unit :=
  bind (extract_frames w "Video_20251103164935468.avi" "jpg_frames_limited"
                       1 None (Some 17) 90)
       (fun _ => ret tt).

(** A file system holding the video that the script names. *)
Definition script_world (n : nat) (rate : float) : World nat :=
  {| on_disk := fun p => String.eqb p "Video_20251103164935468.avi";
     videos := fun p =>
       if String.eqb p "Video_20251103164935468.avi"
       then Some (Sample.clip n rate) else None |}.

End Cli.

(** The same video under another frame count in its header. *)
Definition relabelled {Frame : Type} (count : Z) (cap : Video Frame) :
    Video Frame :=
  {| CAP_PROP_FPS := CAP_PROP_FPS cap;
     CAP_PROP_FRAME_COUNT := count;
     CAP_PROP_FRAME_WIDTH := CAP_PROP_FRAME_WIDTH cap;
     CAP_PROP_FRAME_HEIGHT := CAP_PROP_FRAME_HEIGHT cap;
     frames := frames cap |}.

(** A file system holding one video, ["video.avi"]. *)
Definition world_with {Frame : Type} (cap : Video Frame) : World Frame :=
  {| on_disk := fun p => String.eqb p "video.avi";
     videos := fun p => if String.eqb p "video.avi" then Some cap
                        else None |}.

(** The files a limit lets through (line 81): all of them under [None]
    and under 0, none under a negative limit. *)
Definition limited {A : Type} (max_frames : option Z) (l : list A) :
    list A :=
  match max_frames with
  | Some m => if m =? 0 then l else firstn (Z.to_nat m) l
  | None => l
  end.


(** * Paths *)

Lemma path_exists_valid {Frame : Type} (w : World Frame) (p : string) :
  path_exists w p = true -> valid_path p = true.
Proof. unfold path_exists. intros H. now apply andb_true_iff in H. Qed.

Lemma path_exists_invalid {Frame : Type} (w : World Frame) (p : string) :
  valid_path p = false -> path_exists w p = false.
Proof. unfold path_exists. now intros ->. Qed.

Lemma makedirs_result_valid (d : string) :
  valid_path d = true -> makedirs_result d = Ok tt.
Proof.
  unfold valid_path, makedirs_result. intros H.
  apply andb_true_iff in H as [H1 H2].
  apply negb_true_iff in H1, H2. now rewrite H1, H2.
Qed.

Lemma makedirs_result_invalid (d : string) :
  valid_path d = false -> exists e, makedirs_result d = Raise e.
Proof.
  unfold valid_path, makedirs_result.
  destruct (String.eqb d ""); [now eexists|].
  destruct (has_nul d); [now eexists|discriminate].
Qed.


(** * Traces *)

Section TraceFacts.

Context {Frame : Type}.
Implicit Types t : trace Frame.

Lemma written_app t1 t2 : written (t1 ++ t2) = written t1 ++ written t2.
Proof.
  induction t1 as [|ev t1 IH]; simpl; [reflexivity|].
  destruct ev; simpl; rewrite ?IH; reflexivity.
Qed.

Lemma stdout_app t1 t2 : stdout (t1 ++ t2) = stdout t1 ++ stdout t2.
Proof.
  induction t1 as [|ev t1 IH]; simpl; [reflexivity|].
  destruct ev; simpl; rewrite ?IH; reflexivity.
Qed.

End TraceFacts.

(** * The frame loop *)

Section LoopFacts.

Context {Frame : Type}.
Variables (output_dir : string) (frame_interval : Z)
          (max_frames : option Z) (jpg_quality : Z).

Let body := @loop_body Frame output_dir frame_interval max_frames jpg_quality.
Let loop := @while_loop Frame output_dir frame_interval max_frames jpg_quality.

(** The four ways through one iteration. *)
Lemma loop_body_break frame l :
  limit_reached max_frames (saved_count l) = true ->
  body frame l = (Ok (Break, l), []).
Proof. unfold body, loop_body. now intros ->. Qed.

Lemma loop_body_zero frame l :
  limit_reached max_frames (saved_count l) = false ->
  frame_interval = 0 ->
  body frame l = (Raise ZeroDivisionError, []).
Proof. unfold body, loop_body. now intros -> ->. Qed.

Lemma loop_body_save frame l :
  limit_reached max_frames (saved_count l) = false ->
  frame_interval <> 0 ->
  frame_count l mod frame_interval = 0 ->
  body frame l =
    (Ok (Continue, {| frame_count := frame_count l + 1;
                      saved_count := saved_count l + 1 |}),
     [ImWrite (path_join output_dir (frame_filename (saved_count l)))
              frame jpg_quality;
      PbarUpdate 1]).
Proof.
  unfold body, loop_body, py_mod. intros -> Hk Hm.
  apply Z.eqb_neq in Hk. rewrite Hk. simpl. rewrite Hm. reflexivity.
Qed.

Lemma loop_body_skip frame l :
  limit_reached max_frames (saved_count l) = false ->
  frame_interval <> 0 ->
  frame_count l mod frame_interval <> 0 ->
  body frame l =
    (Ok (Continue, {| frame_count := frame_count l + 1;
                      saved_count := saved_count l |}), []).
Proof.
  unfold body, loop_body, py_mod. intros -> Hk Hm.
  apply Z.eqb_neq in Hk. rewrite Hk. simpl.
  apply Z.eqb_neq in Hm. rewrite Hm. reflexivity.
Qed.

Lemma loop_body_cases frame l :
  body_spec output_dir frame_interval max_frames jpg_quality frame l
            (body frame l).
Proof.
  destruct (limit_reached max_frames (saved_count l)) eqn:Hlim.
  - rewrite loop_body_break by assumption. now constructor.
  - destruct (Z.eq_dec frame_interval 0) as [Hk|Hk].
    + rewrite loop_body_zero by assumption. now constructor.
    + destruct (Z.eq_dec (frame_count l mod frame_interval) 0) as [Hm|Hm].
      * rewrite loop_body_save by assumption. now constructor.
      * rewrite loop_body_skip by assumption. now constructor.
Qed.

(** Unfolding the loop by one [cap.read()]. *)
Lemma while_loop_nil l : loop [] l = (Ok l, []).
Proof. reflexivity. Qed.

Lemma while_loop_cons frame cap l :
  loop (frame :: cap) l =
    match body frame l with
    | (Ok (Break, l'), t) => (Ok l', t ++ [])
    | (Ok (Continue, l'), t) =>
        let (r, t') := loop cap l' in (r, t ++ t')
    | (Raise e, t) => (Raise e, t)
    end.
Proof.
  unfold loop, body. simpl.
  destruct (loop_body _ _ _ _ _ _) as [[[c l']|e] t]; simpl; [|reflexivity].
  destruct c; reflexivity.
Qed.

(** Every [imwrite] of the loop carries the loop's quality, the paths are
    the sequential ones starting at the current [saved_count], and
    [saved_count] grows by the number of files written. *)
Lemma while_loop_written cap : forall l,
  let n := List.length (written (snd (loop cap l))) in
  written_paths (snd (loop cap l))
    = sequential_paths output_dir (saved_count l) n
  /\ Forall (fun q => q = jpg_quality) (written_qualities (snd (loop cap l)))
  /\ (forall l', fst (loop cap l) = Ok l' ->
                 saved_count l' = saved_count l + Z.of_nat n).
Proof.
  induction cap as [|frame cap IH]; intros l.
  - rewrite while_loop_nil. simpl. repeat split; [constructor|].
    intros l' [= <-]. lia.
  - rewrite while_loop_cons.
    destruct (loop_body_cases frame l) as [Hlim|Hlim Hk|Hlim Hk Hm|Hlim Hk Hm].
    + simpl. repeat split; [constructor|]. intros l' [= <-]. lia.
    + simpl. repeat split; [constructor|]. discriminate.
    + specialize (IH {| frame_count := frame_count l + 1;
                        saved_count := saved_count l + 1 |}).
      destruct (loop cap _) as [r t'] eqn:E. simpl in IH |- *.
      destruct IH as (IHp & IHq & IHs).
      unfold written_paths, written_qualities in *. simpl.
      repeat split.
      * unfold sequential_paths in *. simpl. now rewrite IHp.
      * constructor; [reflexivity|assumption].
      * intros l' Hr. rewrite (IHs l' Hr). lia.
    + specialize (IH {| frame_count := frame_count l + 1;
                        saved_count := saved_count l |}).
      destruct (loop cap _) as [r t'] eqn:E. simpl in IH |- *.
      exact IH.
Qed.

(** With a non-zero interval the loop cannot raise. *)
Lemma while_loop_returns cap : forall l,
  frame_interval <> 0 -> exists l', fst (loop cap l) = Ok l'.
Proof.
  induction cap as [|frame cap IH]; intros l Hk.
  - exists l. reflexivity.
  - rewrite while_loop_cons.
    destruct (loop_body_cases frame l) as [Hlim|Hlim Hk'|Hlim _ Hm|Hlim _ Hm].
    + exists l. reflexivity.
    + contradiction.
    + destruct (IH {| frame_count := frame_count l + 1;
                      saved_count := saved_count l + 1 |} Hk) as [l' Hl'].
      exists l'. destruct (loop cap _). exact Hl'.
    + destruct (IH {| frame_count := frame_count l + 1;
                      saved_count := saved_count l |} Hk) as [l' Hl'].
      exists l'. destruct (loop cap _). exact Hl'.
Qed.

End LoopFacts.

(** * Counting the saved frames *)

Lemma ceil_div_next_multiple fc k :
  1 <= k -> fc mod k = 0 -> ceil_div (fc + 1) k = ceil_div fc k + 1.
Proof.
  intros Hk Hm. unfold ceil_div.
  replace (fc + 1 + k - 1) with (fc + k - 1 + 1 * 1) by lia.
  symmetry. apply Z.div_unique with (r := (fc + k - 1) mod k + 1 - k).
  - left. pose proof (Z.mod_pos_bound (fc + k - 1) k ltac:(lia)).
    assert ((fc + k - 1) mod k = k - 1); [|lia].
    replace (fc + k - 1) with (k - 1 + fc) by lia.
    rewrite <- Zplus_mod_idemp_r, Hm, Z.add_0_r.
    apply Z.mod_small. lia.
  - pose proof (Z.div_mod (fc + k - 1) k ltac:(lia)). lia.
Qed.

Lemma ceil_div_next_other fc k :
  1 <= k -> fc mod k <> 0 -> ceil_div (fc + 1) k = ceil_div fc k.
Proof.
  intros Hk Hm. unfold ceil_div.
  pose proof (Z.mod_pos_bound fc k ltac:(lia)) as Hb.
  pose proof (Z.div_mod fc k ltac:(lia)) as Hd.
  assert (H1 : (fc + k - 1) / k = fc / k + 1).
  { symmetry. apply Z.div_unique with (r := fc mod k - 1); lia. }
  assert (H2 : (fc + 1 + k - 1) / k = fc / k + 1).
  { symmetry. apply Z.div_unique with (r := fc mod k); lia. }
  lia.
Qed.


Lemma ceil_div_zero k : 1 <= k -> ceil_div 0 k = 0.
Proof. intros Hk. unfold ceil_div. apply Z.div_small. lia. Qed.

Lemma limit_reached_true m s :
  limit_reached m s = true -> exists mx, m = Some mx /\ mx <> 0 /\ mx <= s.
Proof.
  destruct m as [mx|]; simpl; [|discriminate].
  intros H. apply andb_true_iff in H as [H1 H2].
  exists mx. apply negb_true_iff, Z.eqb_neq in H1.
  apply Z.geb_le in H2. auto.
Qed.


Section LoopCount.

Context {Frame : Type}.
Variables (output_dir : string) (frame_interval : Z)
          (max_frames : option Z) (jpg_quality : Z).
Hypothesis interval_pos : 1 <= frame_interval.


End LoopCount.

(** * The shape of a run of [extract_frames] *)

Section RunShapeFacts.

Context {Frame : Type}.
Variables (w : World Frame) (video_path output_dir : string)
          (frame_interval : Z) (target_fps : option float)
          (max_frames : option Z) (jpg_quality : Z).

Let head : trace Frame := head_trace w video_path output_dir jpg_quality.
Let format_ : float -> trace Frame := format_trace jpg_quality.
Let settings : Video Frame -> Z -> trace Frame := settings_trace max_frames.
Let footer : Locals -> trace Frame := footer_trace output_dir.
(** Every run has one of the seven shapes. *)
Lemma extract_frames_run_spec :
  run_spec w video_path output_dir frame_interval target_fps max_frames
           jpg_quality
           (extract_frames w video_path output_dir frame_interval target_fps
                           max_frames jpg_quality).
Proof.
  unfold extract_frames.
  destruct (path_exists w video_path) eqn:Hexists;
    [|simpl; now apply RunMissing].
  destruct (valid_path output_dir) eqn:Hvalid.
  2:{ destruct (makedirs_result_invalid _ Hvalid) as [e He].
      rewrite (path_exists_invalid w _ Hvalid). unfold os_makedirs.
      rewrite He.
      match goal with |- run_spec _ _ _ _ _ _ _ ?x =>
        replace x with (Raise e : Res bool,
                        @makedirs_trace Frame output_dir jpg_quality)
      end; [now apply RunMakedirsRaises|].
      unfold makedirs_trace.
      destruct ((jpg_quality <? 1) || (jpg_quality >? 100)); reflexivity. }
  unfold os_makedirs. rewrite (makedirs_result_valid _ Hvalid). simpl.
  destruct (videos w video_path) as [cap|] eqn:Hvid.
  2:{ match goal with |- run_spec _ _ _ _ _ _ _ ?x =>
        replace x with (Ok false, head ++ [Print ErrCannotOpen])
      end; [now apply RunUnopened|].
      unfold head, head_trace.
      destruct ((jpg_quality <? 1) || (jpg_quality >? 100));
        destruct (path_exists w output_dir); reflexivity. }
  destruct (py_truediv_int_float (CAP_PROP_FRAME_COUNT cap)
                                 (CAP_PROP_FPS cap))
    as [seconds|e] eqn:Hdur.
  2:{ match goal with |- run_spec _ _ _ _ _ _ _ ?x =>
        replace x with (Raise e : Res bool, head ++ info_trace cap)
      end; [now apply RunDurationRaises|].
      unfold head, head_trace.
      destruct ((jpg_quality <? 1) || (jpg_quality >? 100));
        destruct (path_exists w output_dir); reflexivity. }
  destruct (actual_frame_interval (CAP_PROP_FPS cap) frame_interval
                                  target_fps)
    as [k|e] eqn:Hint.
  2:{ match goal with |- run_spec _ _ _ _ _ _ _ ?x =>
        replace x with
          (Raise e : Res bool,
           head ++ info_trace cap ++ format_ seconds)
      end; [now apply RunIntervalRaises|].
      unfold head, format_, head_trace, format_trace, effective_quality.
      destruct ((jpg_quality <? 1) || (jpg_quality >? 100));
        destruct (path_exists w output_dir); reflexivity. }
  destruct (Z.eq_dec k 0) as [->|Hk].
  { match goal with |- run_spec _ _ _ _ _ _ _ ?x =>
      replace x with
        (Raise ZeroDivisionError : Res bool,
         head ++ info_trace cap ++ format_ seconds)
    end; [now apply RunZeroInterval|].
    unfold head, format_, head_trace, format_trace, effective_quality.
    destruct ((jpg_quality <? 1) || (jpg_quality >? 100));
      destruct (path_exists w output_dir); reflexivity. }
  destruct (while_loop_returns output_dir k max_frames
              (effective_quality jpg_quality) (frames cap) start Hk)
    as [l Hl].
  destruct (while_loop output_dir k max_frames
              (effective_quality jpg_quality) (frames cap) start)
    as [r t] eqn:Hloop.
  simpl in Hl. subst r.
  match goal with |- run_spec _ _ _ _ _ _ _ ?x =>
    replace x with
      (Ok true,
       head ++ info_trace cap ++ format_ seconds
       ++ settings cap k ++ t ++ footer l)
  end; [now apply RunLoop with (k := k)|].
  unfold head, format_, settings, footer, head_trace, format_trace,
    settings_trace, footer_trace, capped, py_floordiv, start,
    effective_quality in *.
  apply Z.eqb_neq in Hk.
  destruct ((jpg_quality <? 1) || (jpg_quality >? 100));
    destruct (path_exists w output_dir); simpl; rewrite Hk; simpl;
    rewrite Hloop; simpl; rewrite <- ?app_assoc; reflexivity.
Qed.

End RunShapeFacts.

(** * File names *)

Lemma string_length_app (x y : string) :
  String.length (x ++ y)%string = (String.length x + String.length y)%nat.
Proof. induction x as [|c x IH]; simpl; [reflexivity|now rewrite IH]. Qed.

Lemma string_app_inv_head (p x y : string) :
  (p ++ x)%string = (p ++ y)%string -> x = y.
Proof.
  induction p as [|c p IH]; simpl; [trivial|].
  intros [= H]. now apply IH.
Qed.

Lemma string_app_inv_tail (s : string) : forall x y : string,
  (x ++ s)%string = (y ++ s)%string -> x = y.
Proof.
  induction x as [|c x IH]; intros [|c' y] H; simpl in H.
  - reflexivity.
  - apply (f_equal String.length) in H. simpl in H.
    rewrite string_length_app in H. lia.
  - apply (f_equal String.length) in H. simpl in H.
    rewrite string_length_app in H. lia.
  - injection H as -> H. f_equal. now apply IH.
Qed.

Lemma parse_decimal_zeros (k : nat) (s : string) :
  parse_decimal (zeros k ++ s)%string = parse_decimal s.
Proof.
  induction k as [|k IH]; simpl; [reflexivity|].
  unfold parse_decimal in *. simpl.
  destruct (NilEmpty.uint_of_string (zeros k ++ s)%string) as [d|];
    destruct (NilEmpty.uint_of_string s) as [d'|]; simpl in *;
    congruence.
Qed.

Lemma parse_decimal_of_uint (d : Decimal.uint) :
  parse_decimal (NilZero.string_of_uint d) = Some (N.of_uint d).
Proof.
  unfold parse_decimal.
  destruct d; [reflexivity|..];
    unfold NilZero.string_of_uint; now rewrite NilEmpty.usu.
Qed.

Lemma parse_decimal_digits (n : Z) :
  parse_decimal (digits n) = Some (Z.abs_N n).
Proof.
  unfold digits.
  now rewrite parse_decimal_of_uint, DecimalN.Unsigned.of_to.
Qed.

Lemma parse_format_06d (n : Z) :
  0 <= n -> parse_decimal (format_06d n) = Some (Z.to_N n).
Proof.
  intros Hn. unfold format_06d.
  destruct (n <? 0) eqn:E; [apply Z.ltb_lt in E; lia|].
  simpl append. rewrite parse_decimal_zeros, parse_decimal_digits.
  f_equal. lia.
Qed.

Lemma format_06d_inj (i j : Z) :
  0 <= i -> 0 <= j -> format_06d i = format_06d j -> i = j.
Proof.
  intros Hi Hj H.
  pose proof (parse_format_06d i Hi) as Pi.
  pose proof (parse_format_06d j Hj) as Pj.
  rewrite H, Pj in Pi. injection Pi as Pi. lia.
Qed.

(** Up to 999999 the index takes exactly six characters. *)
Lemma zeros_length (k : nat) : String.length (zeros k) = k.
Proof. induction k as [|k IH]; simpl; [reflexivity|now rewrite IH]. Qed.

Lemma string_of_uint_length (d : Decimal.uint) :
  String.length (NilEmpty.string_of_uint d) = Decimal.nb_digits d.
Proof. induction d; simpl; rewrite ?IHd; reflexivity. Qed.

Lemma of_uint_acc_lower (d : Decimal.uint) : forall acc : positive,
  Zpos acc * 10 ^ Z.of_nat (Decimal.nb_digits d)
  <= Zpos (Pos.of_uint_acc d acc).
Proof.
  induction d; intros acc; cbn [Decimal.nb_digits Pos.of_uint_acc];
    [simpl; lia|..];
    rewrite Nat2Z.inj_succ, Z.pow_succ_r by lia;
    (eapply Z.le_trans; [|apply IHd]);
    pose proof (Z.pow_pos_nonneg 10 (Z.of_nat (Decimal.nb_digits d))
                  ltac:(lia) ltac:(lia)) as Hpow;
    revert Hpow; generalize (10 ^ Z.of_nat (Decimal.nb_digits d));
    intros X HX; rewrite ?Pos2Z.inj_add, ?Pos2Z.inj_mul; nia.
Qed.

Lemma to_uint_digits_bound (p : positive) :
  10 ^ (Z.of_nat (Decimal.nb_digits (Pos.to_uint p)) - 1) <= Zpos p.
Proof.
  pose proof (DecimalPos.Unsigned.of_to p) as Hof.
  pose proof (DecimalPos.Unsigned.to_of (Pos.to_uint p)) as Hnorm.
  rewrite Hof in Hnorm. simpl in Hnorm.
  destruct (Pos.to_uint p) as [|x|x|x|x|x|x|x|x|x|x] eqn:E.
  1:{ simpl. lia. }
  1:{ exfalso. unfold Decimal.unorm in Hnorm. rewrite nzhead_D0 in Hnorm.
      destruct (Decimal.nzhead x) eqn:En; try discriminate.
      - injection Hnorm as Hx. subst x. discriminate Hof.
      - now apply (nzhead_nonzero x u). }
  all: cbn [Pos.of_uint] in Hof; injection Hof as <-;
    cbn [Decimal.nb_digits]; rewrite Nat2Z.inj_succ;
    replace (Z.succ (Z.of_nat (Decimal.nb_digits x)) - 1)
      with (Z.of_nat (Decimal.nb_digits x)) by lia;
    (eapply Z.le_trans; [|apply of_uint_acc_lower]);
    pose proof (Z.pow_pos_nonneg 10 (Z.of_nat (Decimal.nb_digits x))
                  ltac:(lia) ltac:(lia)) as Hpow;
    revert Hpow; generalize (10 ^ Z.of_nat (Decimal.nb_digits x));
    intros X HX; nia.
Qed.

Lemma digits_width (n : Z) :
  0 <= n < 1000000 -> (String.length (digits n) <= 6)%nat.
Proof.
  intros Hn. unfold digits.
  destruct (Z.abs_N n) as [|p] eqn:E; [simpl; lia|].
  assert (Hp : Zpos p = n) by lia.
  pose proof (to_uint_digits_bound p) as Hb.
  cbn [N.to_uint].
  assert (Hlen : String.length (NilZero.string_of_uint (Pos.to_uint p))
                 = Decimal.nb_digits (Pos.to_uint p)).
  { unfold NilZero.string_of_uint.
    destruct (Pos.to_uint p) eqn:Ed; try apply string_of_uint_length.
    now apply DecimalPos.Unsigned.to_uint_nonnil in Ed. }
  rewrite Hlen.
  destruct (Nat.le_gt_cases (Decimal.nb_digits (Pos.to_uint p)) 6)
    as [Hle|Hgt]; [exact Hle|exfalso].
  assert (10 ^ 6 <= 10 ^ (Z.of_nat (Decimal.nb_digits (Pos.to_uint p)) - 1)).
  { apply Z.pow_le_mono_r; lia. }
  change (10 ^ 6) with 1000000 in *. lia.
Qed.

Lemma format_06d_width (n : Z) :
  0 <= n < 1000000 -> String.length (format_06d n) = 6%nat.
Proof.
  intros Hn. pose proof (digits_width n Hn) as Hd.
  unfold format_06d.
  destruct (n <? 0) eqn:E; [apply Z.ltb_lt in E; lia|].
  cbv beta iota zeta. rewrite !string_length_app, zeros_length.
  change (String.length "") with 0%nat. lia.
Qed.

Lemma frame_filename_inj (i j : Z) :
  0 <= i -> 0 <= j -> frame_filename i = frame_filename j -> i = j.
Proof.
  unfold frame_filename. intros Hi Hj H.
  apply string_app_inv_head, string_app_inv_tail in H.
  now apply format_06d_inj.
Qed.

Lemma frame_filename_relative (i : Z) :
  String.prefix "/" (frame_filename i) = false.
Proof. reflexivity. Qed.

Lemma path_join_frame_inj (dir : string) (i j : Z) :
  0 <= i -> 0 <= j ->
  path_join dir (frame_filename i) = path_join dir (frame_filename j) ->
  i = j.
Proof.
  unfold path_join. rewrite !frame_filename_relative.
  intros Hi Hj H. apply (frame_filename_inj i j Hi Hj).
  destruct ((dir =? "")%string || ends_with_slash dir).
  - now apply string_app_inv_head in H.
  - now apply string_app_inv_head, string_app_inv_head in H.
Qed.

Lemma count_from_bounds (n : nat) : forall start i,
  In i (count_from start n) -> start <= i < start + Z.of_nat n.
Proof.
  induction n as [|n IH]; simpl; intros start i; [contradiction|].
  intros [<-|H]; [lia|]. apply IH in H. lia.
Qed.

Lemma count_from_NoDup (n : nat) : forall start, NoDup (count_from start n).
Proof.
  induction n as [|n IH]; simpl; intros start; constructor.
  - intros H. apply count_from_bounds in H. lia.
  - apply IH.
Qed.

Lemma sequential_paths_NoDup (dir : string) (start : Z) (n : nat) :
  0 <= start -> NoDup (sequential_paths dir start n).
Proof.
  intros Hs. unfold sequential_paths.
  assert (Hb := count_from_bounds n start).
  assert (Hd := count_from_NoDup n start).
  induction (count_from start n) as [|i rest IH]; simpl; constructor.
  - intros Hin. apply in_map_iff in Hin as (j & Hj & Hin).
    apply path_join_frame_inj in Hj.
    + subst j. now inversion Hd.
    + specialize (Hb j (or_intror Hin)). lia.
    + specialize (Hb i (or_introl eq_refl)). lia.
  - apply IH.
    + intros j Hj. apply Hb. now right.
    + now inversion Hd.
Qed.

(** * Consequences of the shape of a run *)

Section RunFacts.

Context {Frame : Type}.
Implicit Types (w : World Frame) (r : M Frame bool).

Lemma written_head_trace w v d q : written (head_trace w v d q) = [].
Proof.
  unfold head_trace.
  destruct ((q <? 1) || (q >? 100)); destruct (path_exists w d); reflexivity.
Qed.

Lemma written_makedirs_trace d q :
  written (@makedirs_trace Frame d q) = [].
Proof.
  unfold makedirs_trace. destruct ((q <? 1) || (q >? 100)); reflexivity.
Qed.

(** A run writes nothing, or exactly what its frame loop writes. *)
Lemma run_spec_written w v d k t m q r :
  run_spec w v d k t m q r ->
  (fst r <> Ok true /\ written (snd r) = [])
  \/ exists cap kk l tl,
       videos w v = Some cap
       /\ actual_frame_interval (CAP_PROP_FPS cap) k t = Ok kk
       /\ kk <> 0
       /\ while_loop d kk m (effective_quality q) (frames cap) start
          = (Ok l, tl)
       /\ fst r = Ok true
       /\ written (snd r) = written tl
       /\ exists lines,
            stdout (snd r)
            = lines ++ [DoneHeader; DoneSaved (saved_count l);
                        DoneOutputDir d].
Proof.
  intros H. destruct H.
  - left. split; [discriminate|reflexivity].
  - left. split; [discriminate|].
    simpl. now rewrite written_app, written_head_trace.
  - left. split; [discriminate|].
    simpl. now rewrite written_app, written_head_trace.
  - left. split; [discriminate|].
    simpl. now rewrite !written_app, written_head_trace.
  - left. split; [discriminate|].
    simpl. now rewrite !written_app, written_head_trace.
  - right. exists cap, k0, l, t0. cbn [fst snd].
    repeat (split; [assumption || reflexivity|]).
    split.
    + rewrite !written_app, written_head_trace. simpl.
      apply List.app_nil_r.
    + rewrite !List.app_assoc, stdout_app. eexists. reflexivity.
  - left. split; [discriminate|]. apply written_makedirs_trace.
Qed.

(** The shape determines the run. *)
Lemma run_spec_functional w v d k t m q r r' :
  run_spec w v d k t m q r -> run_spec w v d k t m q r' -> r = r'.
Proof.
  intros H H'.
  destruct H; destruct H'; try congruence;
    repeat match goal with
           | H1 : ?x = _, H2 : ?x = _ |- _ =>
               rewrite H1 in H2; injection H2 as H2; subst
           end;
    try congruence.
Qed.

(** A run depends on [frame_interval] and [target_fps] only through the
    actual frame interval. *)
Lemma run_spec_interval w v d k t k' t' m q r :
  (forall cap, videos w v = Some cap ->
     actual_frame_interval (CAP_PROP_FPS cap) k t
     = actual_frame_interval (CAP_PROP_FPS cap) k' t') ->
  run_spec w v d k t m q r -> run_spec w v d k' t' m q r.
Proof.
  intros Hk H. destruct H.
  - now apply RunMissing.
  - now apply RunUnopened.
  - now apply RunDurationRaises.
  - apply RunIntervalRaises; try assumption. now rewrite <- Hk.
  - apply RunZeroInterval; try assumption. now rewrite <- Hk.
  - apply RunLoop with (k := k0); try assumption. now rewrite <- Hk.
  - now apply RunMakedirsRaises.
Qed.

Lemma extract_frames_interval w v d k t k' t' m q :
  (forall cap, videos w v = Some cap ->
     actual_frame_interval (CAP_PROP_FPS cap) k t
     = actual_frame_interval (CAP_PROP_FPS cap) k' t') ->
  extract_frames w v d k t m q = extract_frames w v d k' t' m q.
Proof.
  intros Hk.
  apply (run_spec_functional w v d k' t' m q).
  - apply (run_spec_interval w v d k t); [assumption|].
    apply extract_frames_run_spec.
  - apply extract_frames_run_spec.
Qed.

End RunFacts.

(** * The loop as a transition system *)

Section LoopInvariant.

Context {Frame : Type}.
Variables (output_dir : string) (frame_interval : Z)
          (max_frames : option Z) (jpg_quality : Z).

Let step :=
  @loop_step Frame output_dir frame_interval max_frames jpg_quality.
Let reaches :=
  @loop_reaches Frame output_dir frame_interval max_frames jpg_quality.

(** The function [while_loop] runs the transition system: where it stops is
    a reachable state, holding its result and its trace. *)
Lemma while_loop_reaches (cap : list Frame) : forall l t0 r t,
  while_loop output_dir frame_interval max_frames jpg_quality cap l = (r, t) ->
  exists cap' l',
    reaches (cap, l, t0) (cap', l', t0 ++ t)
    /\ (forall lf, r = Ok lf -> lf = l').
Proof.
  induction cap as [|frame cap IH]; intros l t0 r t.
  - rewrite while_loop_nil. intros [= <- <-].
    exists [], l. rewrite List.app_nil_r.
    split; [apply rt1n_refl|]. now intros lf [= <-].
  - rewrite while_loop_cons.
    destruct (loop_body output_dir frame_interval max_frames jpg_quality
                frame l) as [[[[|] l1]|e] t1] eqn:Hbody.
    + destruct (while_loop _ _ _ _ cap l1) as [r2 t2] eqn:Hloop.
      intros [= <- <-].
      destruct (IH l1 (t0 ++ t1) r2 t2 Hloop) as (cap' & l' & Hreach & Hres).
      exists cap', l'. split; [|assumption].
      rewrite List.app_assoc.
      eapply rt1n_trans; [|exact Hreach].
      now constructor.
    + intros [= <- <-].
      destruct (loop_body_cases output_dir frame_interval max_frames
                  jpg_quality frame l) as [Hr| | |]; try discriminate.
      exists (frame :: cap), l.
      injection Hbody as <- <-. rewrite !List.app_nil_r.
      split; [apply rt1n_refl|]. now intros lf [= <-].
    + intros [= <- <-].
      destruct (loop_body_cases output_dir frame_interval max_frames
                  jpg_quality frame l) as [|Hr Hk| |]; try discriminate.
      exists (frame :: cap), l.
      injection Hbody as <- <-. rewrite !List.app_nil_r.
      split; [apply rt1n_refl|]. discriminate.
Qed.

(** One step keeps [saved_count] within a positive limit, and keeps it
    equal to the number of files written. *)
Lemma loop_step_invariant (mx : Z) (s s' : loop_state Frame) :
  max_frames = Some mx -> 1 <= mx ->
  step s s' ->
  ls_saved s <= mx /\ Z.of_nat (ls_files s) = ls_saved s ->
  ls_saved s' <= mx /\ Z.of_nat (ls_files s') = ls_saved s'.
Proof.
  intros Hm Hmx Hstep [Hle Hfiles].
  destruct Hstep as [frame cap l l' t t' Hbody].
  unfold ls_saved, ls_files in *. simpl in *.
  rewrite written_app, length_app, Nat2Z.inj_add, Hfiles.
  destruct (loop_body_cases output_dir frame_interval max_frames
              jpg_quality frame l) as [Hr|Hr Hk|Hr Hk Hmod|Hr Hk Hmod];
    try discriminate; injection Hbody as <- <-; simpl.
  - rewrite Hm in Hr. simpl in Hr.
    apply andb_false_iff in Hr as [Hr|Hr].
    + apply negb_false_iff, Z.eqb_eq in Hr. lia.
    + rewrite Z.geb_leb in Hr. apply Z.leb_gt in Hr. lia.
  - lia.
Qed.

Lemma loop_reaches_invariant (mx : Z) (s s' : loop_state Frame) :
  max_frames = Some mx -> 1 <= mx ->
  reaches s s' ->
  ls_saved s <= mx /\ Z.of_nat (ls_files s) = ls_saved s ->
  ls_saved s' <= mx /\ Z.of_nat (ls_files s') = ls_saved s'.
Proof.
  intros Hm Hmx Hreach. induction Hreach as [|s s1 s2 Hstep _ IH].
  - trivial.
  - intros H. apply IH. now apply (loop_step_invariant mx s s1).
Qed.

End LoopInvariant.

(** * Float comparisons *)





(** * Converting a frame count to a float *)

Lemma digits2_pos_iter_xO (m k : positive) :
  Zpos (digits2_pos (Pos.iter xO m k)) = Zpos (digits2_pos m) + Zpos k.
Proof.
  induction k as [|k IH] using Pos.peano_ind.
  - simpl. lia.
  - rewrite Pos.iter_succ. simpl digits2_pos. lia.
Qed.

Lemma digits2_pos_lower (m : positive) :
  2 ^ (Zpos (digits2_pos m) - 1) <= Zpos m.
Proof.
  induction m as [m IH|m IH|]; simpl digits2_pos; [| |simpl; lia].
  all: rewrite Pos2Z.inj_succ;
    replace (Z.succ (Zpos (digits2_pos m)) - 1)
      with (Z.succ (Zpos (digits2_pos m) - 1)) by lia;
    rewrite Z.pow_succ_r by lia; lia.
Qed.

Lemma shr_fexp_exact (mz : positive) (ez : Z) :
  Zpos (digits2_pos mz) = 53 -> -1074 <= ez ->
  shr_fexp PyFloat.prec PyFloat.emax (Zpos mz) ez loc_Exact
  = ({| shr_m := Zpos mz; shr_r := false; shr_s := false |}, ez).
Proof.
  intros Hd He. unfold shr_fexp, fexp, emin, PyFloat.prec, PyFloat.emax.
  cbn [Zdigits2]. rewrite Hd.
  replace (Z.max (53 + ez - 53) (3 - 1024 - 53) - ez) with 0 by lia.
  reflexivity.
Qed.

Lemma binary_round_aux_exact (s : bool) (mz : positive) (ez : Z) :
  Zpos (digits2_pos mz) = 53 -> -1074 <= ez <= 971 ->
  binary_round_aux PyFloat.prec PyFloat.emax s (Zpos mz) ez loc_Exact
  = S754_finite s mz ez.
Proof.
  intros Hd He. unfold binary_round_aux.
  rewrite shr_fexp_exact by (assumption || lia).
  cbn [shr_m loc_of_shr_record round_nearest_even].
  rewrite shr_fexp_exact by (assumption || lia).
  cbn [shr_m]. unfold PyFloat.prec, PyFloat.emax.
  destruct (Z.leb_spec ez (1024 - 53)); [reflexivity|lia].
Qed.

Lemma binary_round_small (s : bool) (m : positive) :
  Zpos (digits2_pos m) <= 53 ->
  exists mz ez, binary_round PyFloat.prec PyFloat.emax s m 0
                = S754_finite s mz ez.
Proof.
  intros Hd. unfold binary_round, shl_align.
  assert (Hf : fexp PyFloat.prec PyFloat.emax (Zpos (digits2_pos m) + 0)
               = Zpos (digits2_pos m) - 53).
  { unfold fexp, emin, PyFloat.prec, PyFloat.emax. lia. }
  rewrite Hf.
  destruct (Zpos (digits2_pos m) - 53 - 0) as [|k|k] eqn:Ek.
  - exists m, 0. apply binary_round_aux_exact; lia.
  - lia.
  - exists (Pos.iter xO m k), (Zpos (digits2_pos m) - 53).
    apply binary_round_aux_exact; [|lia].
    rewrite digits2_pos_iter_xO. lia.
Qed.

(** Every integer below [2 ^ 53] in absolute value is a double. *)
Lemma small_int_representable (n : Z) :
  Z.abs n < 2 ^ 53 -> representable n = true.
Proof.
  intros Hn. unfold representable, float_of_int, PyFloat.of_Z,
    binary_normalize.
  destruct n as [|m|m]; [reflexivity| |].
  all: assert (Hd : Zpos (digits2_pos m) <= 53)
    by (pose proof (digits2_pos_lower m);
        destruct (Z.le_gt_cases (Zpos (digits2_pos m)) 53); [assumption|];
        assert (2 ^ 53 <= 2 ^ (Zpos (digits2_pos m) - 1))
          by (apply Z.pow_le_mono_r; lia);
        lia).
  - destruct (binary_round_small false m Hd) as (mz & ez & ->). reflexivity.
  - destruct (binary_round_small true m Hd) as (mz & ez & ->). reflexivity.
Qed.

Lemma digits2_pos_upper (m : positive) :
  Zpos m < 2 ^ Zpos (digits2_pos m).
Proof.
  induction m as [m IH|m IH|]; simpl digits2_pos; [| |simpl; lia].
  all: rewrite Pos2Z.inj_succ, Z.pow_succ_r by lia; lia.
Qed.

Lemma iter_pos_iter {A : Type} (f : A -> A) (p : positive) : forall x,
  iter_pos f p x = Pos.iter f x p.
Proof.
  induction p as [p IH|p IH|]; intros x; simpl; [|now rewrite !IH|reflexivity].
  now rewrite !IH, <- !Pos.iter_swap.
Qed.

(** Shifting right the zeros that a shift to the left brought in loses
    nothing. *)
Lemma shr_iter_xO (m p : positive) :
  iter_pos shr_1 p
    {| shr_m := Zpos (Pos.iter xO m p); shr_r := false; shr_s := false |}
  = {| shr_m := Zpos m; shr_r := false; shr_s := false |}.
Proof.
  rewrite iter_pos_iter.
  induction p as [|p IH] using Pos.peano_ind; [reflexivity|].
  rewrite Pos.iter_succ_r, Pos.iter_succ. exact IH.
Qed.

Lemma shiftl_pos_iter (m p : positive) :
  Z.shiftl (Zpos m) (Zpos p) = Zpos (Pos.iter xO m p).
Proof.
  unfold Z.shiftl.
  induction p as [|p IH] using Pos.peano_ind; [reflexivity|].
  now rewrite !Pos.iter_succ, IH.
Qed.

(** A 53-bit mantissa shifted to the left is the double with that
    mantissa. *)
Lemma binary_round_shifted (s : bool) (m p : positive) :
  Zpos (digits2_pos m) = 53 -> Zpos p <= 971 ->
  binary_round PyFloat.prec PyFloat.emax s (Pos.iter xO m p) 0
  = S754_finite s m (Zpos p).
Proof.
  intros Hd Hp. unfold binary_round, shl_align.
  assert (Hf : fexp PyFloat.prec PyFloat.emax
                 (Zpos (digits2_pos (Pos.iter xO m p)) + 0) = Zpos p).
  { rewrite digits2_pos_iter_xO.
    unfold fexp, emin, PyFloat.prec, PyFloat.emax. lia. }
  rewrite Hf. cbn [Z.sub Z.add Z.opp Z.pos_sub].
  unfold binary_round_aux, shr_fexp at 1. cbn [Zdigits2].
  rewrite Hf. cbn [Z.sub Z.add Z.opp Z.pos_sub shr_record_of_loc shr].
  rewrite shr_iter_xO. cbn [shr_m loc_of_shr_record round_nearest_even].
  rewrite shr_fexp_exact by (assumption || lia).
  cbn [shr_m]. unfold PyFloat.prec, PyFloat.emax.
  destruct (Z.leb_spec (Zpos p) (1024 - 53)); [reflexivity|lia].
Qed.

(** [total_frames] is [int()] of a double (line 46): converting it back
    to a float, as the division of line 54 does, cannot overflow. *)
Lemma py_int_representable (x : float) (n : Z) :
  PyFloat.valid x = true -> py_int x = Ok n -> representable n = true.
Proof.
  destruct x as [s|s| |s m e]; simpl; try discriminate.
  - intros _ [= <-]. reflexivity.
  - unfold PyFloat.valid, valid_binary, bounded, canonical_mantissa.
    intros Hv [= <-]. apply andb_true_iff in Hv as [Hc He].
    apply Z.eqb_eq in Hc. apply Z.leb_le in He.
    unfold fexp, emin, PyFloat.prec, PyFloat.emax in *.
    pose proof (digits2_pos_upper m) as Hup.
    destruct e as [|p|p].
    + apply small_int_representable.
      assert (Zpos m < 2 ^ 53).
      { eapply Z.lt_le_trans; [exact Hup|]. apply Z.pow_le_mono_r; lia. }
      rewrite Z.shiftl_0_r. destruct s; simpl; lia.
    + assert (Hd : Zpos (digits2_pos m) = 53) by lia.
      rewrite shiftl_pos_iter.
      destruct s; cbn [cond_Zopp Z.opp];
        unfold representable, float_of_int, PyFloat.of_Z;
        cbn [binary_normalize];
        rewrite (binary_round_shifted _ m p Hd He); reflexivity.
    + apply small_int_representable.
      assert (Zpos m < 2 ^ 53).
      { eapply Z.lt_le_trans; [exact Hup|]. apply Z.pow_le_mono_r; lia. }
      rewrite Z.shiftl_div_pow2 by lia.
      change (- Z.neg p) with (Z.pos p).
      pose proof (Z.pow_pos_nonneg 2 (Z.pos p) ltac:(lia) ltac:(lia)) as Hpow.
      assert (Hq : 0 <= Z.pos m / 2 ^ Z.pos p <= Z.pos m).
      { split; [apply Z.div_pos; lia|].
        apply Z.div_le_upper_bound; [lia|nia]. }
      destruct s; cbn [cond_Zopp]; lia.
Qed.

(** * The duration line and the count of a run *)

Lemma duration_defined (n : Z) (rate : float) :
  representable n = true -> PyFloat.truthy rate = true ->
  exists seconds, py_truediv_int_float n rate = Ok seconds.
Proof.
  unfold representable, py_truediv_int_float, py_fdiv, PyFloat.truthy.
  destruct (float_of_int n) as [x|]; [|discriminate].
  intros _ H. apply negb_true_iff in H. rewrite H. now eexists.
Qed.



(** * Error paths and the quality fallback *)

Lemma extract_frames_missing {Frame : Type} (w : World Frame)
    (v d : string) (k : Z) (t : option float) (m : option Z) (q : Z) :
  path_exists w v = false ->
  extract_frames w v d k t m q = (Ok false, [Print (ErrNotFound v)]).
Proof. intros H. unfold extract_frames. now rewrite H. Qed.






(** Every [imwrite] of a run carries the effective quality. *)
Lemma extract_frames_qualities {Frame : Type} (w : World Frame)
    (v d : string) (k : Z) (t : option float) (m : option Z) (q : Z) :
  Forall (fun x => x = effective_quality q)
         (written_qualities (snd (extract_frames w v d k t m q))).
Proof.
  pose proof (extract_frames_run_spec w v d k t m q) as H.
  apply run_spec_written in H
    as [[_ Hw]|(cap & kk & l & tl & _ & _ & _ & Hloop & _ & Hw & _)];
    unfold written_qualities; rewrite Hw; [constructor|].
  pose proof (while_loop_written d kk m (effective_quality q) (frames cap)
                start) as (_ & Hq & _).
  now rewrite Hloop in Hq.
Qed.

Lemma effective_quality_range (q : Z) : 1 <= effective_quality q <= 100.
Proof.
  unfold effective_quality.
  destruct (q <? 1) eqn:E1; destruct (q >? 100) eqn:E2; simpl; lia.
Qed.


(** * A limit of zero *)

Lemma loop_body_zero_limit {Frame : Type} (d : string) (k q : Z)
    (frame : Frame) (l : Locals) :
  loop_body d k (Some 0) q frame l = loop_body d k None q frame l.
Proof. reflexivity. Qed.

Lemma while_loop_zero_limit {Frame : Type} (d : string) (k q : Z)
    (cap : list Frame) : forall l,
  while_loop d k (Some 0) q cap l = while_loop d k None q cap l.
Proof.
  induction cap as [|frame cap IH]; intros l; [reflexivity|].
  rewrite !while_loop_cons, loop_body_zero_limit.
  destruct (loop_body d k None q frame l) as [[[[|] l']|e] t];
    try reflexivity.
  now rewrite IH.
Qed.

(** * What the loop adds to the trace *)

Section LoopTrace.

Context {Frame : Type}.
Variables (output_dir : string) (frame_interval : Z)
          (max_frames : option Z) (jpg_quality : Z).

(** The loop makes no call but [imwrite] and the progress update after
    it: its trace is rebuilt from the files it wrote. *)
Lemma while_loop_trace (cap : list Frame) : forall l,
  snd (while_loop output_dir frame_interval max_frames jpg_quality cap l)
  = flat_map save_events
      (written
         (snd (while_loop output_dir frame_interval max_frames jpg_quality
                          cap l))).
Proof.
  induction cap as [|frame cap IH]; intros l; [reflexivity|].
  rewrite while_loop_cons.
  destruct (loop_body_cases output_dir frame_interval max_frames jpg_quality
              frame l) as [Hr|Hr Hk|Hr Hk Hm|Hr Hk Hm]; try reflexivity.
  - specialize (IH {| frame_count := frame_count l + 1;
                      saved_count := saved_count l + 1 |}).
    destruct (while_loop _ _ _ _ cap _) as [r t]. simpl in IH |- *.
    do 2 f_equal. exact IH.
  - specialize (IH {| frame_count := frame_count l + 1;
                      saved_count := saved_count l |}).
    destruct (while_loop _ _ _ _ cap _) as [r t]. exact IH.
Qed.

End LoopTrace.

Lemma count_event_app {Frame : Type} (kind : event Frame -> bool)
    (t1 t2 : trace Frame) :
  count_event kind (t1 ++ t2)
  = (count_event kind t1 + count_event kind t2)%nat.
Proof. unfold count_event. now rewrite filter_app, length_app. Qed.

Lemma count_event_saves {Frame : Type} (kind : event Frame -> bool)
    (ws : list (string * Frame * Z)) :
  (forall p f q, kind (ImWrite p f q) = false) ->
  (forall n, kind (PbarUpdate n) = false) ->
  count_event kind (flat_map save_events ws) = 0%nat.
Proof.
  intros Hw Hu. induction ws as [|[[p f] q] ws IH]; [reflexivity|].
  unfold count_event in *. simpl. now rewrite Hw, Hu.
Qed.

Lemma count_updates_saves {Frame : Type} (ws : list (string * Frame * Z)) :
  count_event is_pbar_update (flat_map save_events ws) = List.length ws.
Proof.
  induction ws as [|[[p f] q] ws IH]; [reflexivity|].
  unfold count_event in *. simpl. now rewrite IH.
Qed.

Lemma written_saves {Frame : Type} (ws : list (string * Frame * Z)) :
  written (flat_map save_events ws) = ws.
Proof.
  induction ws as [|[[p f] q] ws IH]; [reflexivity|].
  simpl. now rewrite IH.
Qed.

(** * Which frames are saved *)

Section LoopSelection.

Context {Frame : Type}.
Variables (output_dir : string) (frame_interval jpg_quality : Z).
Hypothesis interval_nonzero : frame_interval <> 0.

(** Without a limit the loop saves the frames at the multiples of the
    interval, in order. *)
Lemma while_loop_selects (cap : list Frame) : forall l,
  written_frames
    (snd (while_loop output_dir frame_interval None jpg_quality cap l))
  = select_from frame_interval (frame_count l) cap.
Proof.
  induction cap as [|frame cap IH]; intros l; [reflexivity|].
  rewrite while_loop_cons. cbn [select_from].
  destruct (loop_body_cases output_dir frame_interval None jpg_quality
              frame l) as [Hr|Hr Hk|Hr Hk Hm|Hr Hk Hm].
  - discriminate.
  - contradiction.
  - rewrite Hm. cbn [Z.eqb].
    specialize (IH {| frame_count := frame_count l + 1;
                      saved_count := saved_count l + 1 |}).
    destruct (while_loop _ _ _ _ cap _) as [r t].
    unfold written_frames in *. simpl in IH |- *. now rewrite IH.
  - apply Z.eqb_neq in Hm. rewrite Hm.
    specialize (IH {| frame_count := frame_count l + 1;
                      saved_count := saved_count l |}).
    destruct (while_loop _ _ _ _ cap _) as [r t]. exact IH.
Qed.

(** Under a limit other than 0 the loop writes the first files of the
    loop without limit: as many as the limit still allows. *)
Lemma while_loop_limit_prefix (mx : Z) (cap : list Frame) : forall l,
  mx <> 0 ->
  written
    (snd (while_loop output_dir frame_interval (Some mx) jpg_quality cap l))
  = firstn (Z.to_nat (mx - saved_count l))
      (written
         (snd (while_loop output_dir frame_interval None jpg_quality cap l))).
Proof.
  induction cap as [|frame cap IH]; intros l Hmx.
  - simpl. now rewrite firstn_nil.
  - rewrite !while_loop_cons.
    destruct (loop_body_cases output_dir frame_interval None jpg_quality
                frame l) as [Hn|Hn Hk|Hn Hk Hm|Hn Hk Hm];
      [discriminate|contradiction| |].
    + destruct (loop_body_cases output_dir frame_interval (Some mx)
                  jpg_quality frame l) as [Hr|Hr Hk'|Hr _ _|Hr _ Hm'];
        [|contradiction| |contradiction].
      * apply limit_reached_true in Hr as (mx' & [= <-] & _ & Hle).
        replace (Z.to_nat (mx - saved_count l)) with 0%nat by lia.
        reflexivity.
      * simpl in Hr. apply andb_false_iff in Hr as [Hr|Hr];
          [apply negb_false_iff, Z.eqb_eq in Hr; contradiction|].
        rewrite Z.geb_leb in Hr. apply Z.leb_gt in Hr.
        specialize (IH {| frame_count := frame_count l + 1;
                          saved_count := saved_count l + 1 |} Hmx).
        destruct (while_loop _ _ (Some mx) _ cap _) as [r t].
        destruct (while_loop _ _ None _ cap _) as [r' t'].
        simpl in IH |- *. rewrite IH.
        replace (Z.to_nat (mx - saved_count l))
          with (S (Z.to_nat (mx - (saved_count l + 1)))) by lia.
        reflexivity.
    + destruct (loop_body_cases output_dir frame_interval (Some mx)
                  jpg_quality frame l) as [Hr|Hr Hk'|Hr _ Hm'|Hr _ _];
        [|contradiction|contradiction|].
      * apply limit_reached_true in Hr as (mx' & [= <-] & _ & Hle).
        replace (Z.to_nat (mx - saved_count l)) with 0%nat by lia.
        reflexivity.
      * specialize (IH {| frame_count := frame_count l + 1;
                          saved_count := saved_count l |} Hmx).
        destruct (while_loop _ _ (Some mx) _ cap _) as [r t].
        destruct (while_loop _ _ None _ cap _) as [r' t'].
        exact IH.
Qed.

End LoopSelection.

Lemma ceil_div_gap (i k : Z) :
  1 <= k ->
  0 <= ceil_div i k * k - i < k
  /\ (i mod k = 0 -> ceil_div i k * k = i)
  /\ (i mod k <> 0 -> 1 <= ceil_div i k * k - i).
Proof.
  intros Hk. unfold ceil_div.
  pose proof (Z.div_mod (i + k - 1) k ltac:(lia)) as Hd.
  pose proof (Z.mod_pos_bound (i + k - 1) k ltac:(lia)) as Hb.
  pose proof (Z.div_mod i k ltac:(lia)) as Hd'.
  pose proof (Z.mod_pos_bound i k ltac:(lia)) as Hb'.
  split; [nia|]. split.
  - intros Hm. rewrite Hm in Hd'.
    assert (Hq : (i + k - 1) / k = i / k).
    { symmetry. apply Z.div_unique with (r := k - 1); lia. }
    rewrite Hq. lia.
  - intros Hm.
    assert (Hq : (i + k - 1) / k = i / k + 1).
    { symmetry. apply Z.div_unique with (r := i mod k - 1); lia. }
    rewrite Hq. lia.
Qed.

(** The [j]-th selected frame is the one [j] intervals after the first
    multiple of the interval. *)
Lemma select_from_nth {Frame : Type} (k : Z) (frames : list Frame) :
  1 <= k ->
  forall (i : Z) (j : nat),
    nth_error (select_from k i frames) j
    = nth_error frames
        (Z.to_nat (ceil_div i k * k - i) + j * Z.to_nat k)%nat.
Proof.
  intros Hk. induction frames as [|f fs IH]; intros i j.
  - simpl. now rewrite !nth_error_nil.
  - destruct (ceil_div_gap i k Hk) as (Hgap & Hexact & Hpos).
    cbn [select_from].
    destruct (Z.eqb_spec (i mod k) 0) as [Hm|Hm].
    + rewrite (Hexact Hm), Z.sub_diag. simpl Z.to_nat. simpl Nat.add.
      destruct j as [|j]; [reflexivity|].
      cbn [nth_error]. rewrite IH.
      rewrite (ceil_div_next_multiple i k Hk Hm).
      replace (S j * Z.to_nat k)%nat
        with (S (Z.to_nat ((ceil_div i k + 1) * k - (i + 1))
                 + j * Z.to_nat k))%nat; [reflexivity|].
      rewrite Z.mul_add_distr_r, (Hexact Hm). simpl Nat.mul. lia.
    + rewrite IH. specialize (Hpos Hm).
      rewrite (ceil_div_next_other i k Hk Hm).
      replace (Z.to_nat (ceil_div i k * k - i) + j * Z.to_nat k)%nat
        with (S (Z.to_nat (ceil_div i k * k - (i + 1)) + j * Z.to_nat k))%nat
        by lia.
      reflexivity.
Qed.

Lemma nth_error_count_from (n : nat) : forall (start : Z) (j : nat) (x : Z),
  nth_error (count_from start n) j = Some x -> x = start + Z.of_nat j.
Proof.
  induction n as [|n IH]; intros start j x; simpl.
  - now rewrite nth_error_nil.
  - destruct j as [|j]; simpl.
    + intros [= <-]. lia.
    + intros H. apply IH in H. lia.
Qed.

Lemma nth_error_firstn_some {A : Type} (n : nat) (l : list A) (j : nat)
    (x : A) :
  nth_error (firstn n l) j = Some x -> nth_error l j = Some x.
Proof.
  revert l j. induction n as [|n IH]; intros l j; simpl.
  - now rewrite nth_error_nil.
  - destruct l as [|a l]; [now rewrite nth_error_nil|].
    destruct j as [|j]; simpl; [trivial|]. apply IH.
Qed.

(** The files of a loop entered at the start, one by one. *)
Lemma while_loop_nth {Frame : Type} (d : string) (k : Z) (m : option Z)
    (q : Z) (cap : list Frame) (j : nat) (p : string) (f : Frame) (q' : Z) :
  1 <= k ->
  nth_error (written (snd (while_loop d k m q cap start))) j
    = Some (p, f, q') ->
  p = path_join d (frame_filename (Z.of_nat j))
  /\ nth_error cap (j * Z.to_nat k) = Some f
  /\ q' = q.
Proof.
  intros Hk Hnth.
  pose proof (while_loop_written d k m q cap start) as (Hp & Hq & _).
  split; [|split].
  - apply (map_nth_error (fun w => fst (fst w))) in Hnth as Hpath.
    fold (written_paths (snd (while_loop d k m q cap start))) in Hpath.
    rewrite Hp in Hpath. unfold sequential_paths in Hpath.
    rewrite nth_error_map in Hpath.
    destruct (nth_error (count_from _ _) j) as [x|] eqn:Ex;
      [|discriminate].
    apply nth_error_count_from in Ex. simpl in Ex, Hpath. subst x.
    now injection Hpath as <-.
  - assert (Hfree :
      nth_error (written (snd (while_loop d k None q cap start))) j
      = Some (p, f, q')).
    { destruct m as [mx|]; [|exact Hnth].
      destruct (Z.eq_dec mx 0) as [->|Hmx].
      - now rewrite <- while_loop_zero_limit.
      - rewrite (while_loop_limit_prefix d k q ltac:(lia) mx cap start Hmx)
          in Hnth.
        now apply nth_error_firstn_some in Hnth. }
    apply (map_nth_error (fun w => snd (fst w))) in Hfree.
    fold (written_frames (snd (while_loop d k None q cap start))) in Hfree.
    rewrite (while_loop_selects d k q ltac:(lia) cap start) in Hfree.
    rewrite (select_from_nth k cap Hk) in Hfree.
    change (frame_count start) with 0 in Hfree.
    rewrite (ceil_div_zero k Hk) in Hfree. exact Hfree.
  - apply (map_nth_error snd) in Hnth.
    fold (written_qualities (snd (while_loop d k m q cap start))) in Hnth.
    rewrite Forall_forall in Hq. apply Hq.
    now apply nth_error_In in Hnth.
Qed.

(** * Runs: frames, limit and sign of the interval *)

Lemma written_loop_shape {Frame : Type} (w : World Frame) (v d : string)
    (m : option Z) (q : Z) (cap : Video Frame) (seconds : float) (k : Z)
    (l : Locals) (t : trace Frame) :
  written (head_trace w v d q ++ info_trace cap ++ format_trace q seconds
           ++ settings_trace m cap k ++ t ++ footer_trace d l)
  = written t.
Proof.
  rewrite !written_app, written_head_trace. simpl. apply List.app_nil_r.
Qed.

(** The interval passed in is kept, or replaced by one that does not
    depend on it, or the replacement raises. *)
Lemma actual_frame_interval_cases (original_fps : float)
    (target_fps : option float) :
  (forall k, actual_frame_interval original_fps k target_fps = Ok k)
  \/ (exists fi, 1 <= fi
        /\ forall k, actual_frame_interval original_fps k target_fps = Ok fi)
  \/ (exists e,
        forall k, actual_frame_interval original_fps k target_fps = Raise e).
Proof.
  unfold actual_frame_interval. destruct target_fps as [t|]; [|now left].
  destruct (PyFloat.truthy t && PyFloat.ltb t original_fps); [|now left].
  right. destruct (py_fdiv original_fps t) as [x|e]; [|right; now exists e].
  destruct (py_int x) as [n|e]; [|right; now exists e].
  left. exists (Z.max 1 n). split; [lia|reflexivity].
Qed.

Lemma run_spec_without_limit {Frame : Type} (w : World Frame)
    (v d : string) (k : Z) (t : option float) (mx q : Z)
    (r : M Frame bool) :
  mx <> 0 ->
  run_spec w v d k t (Some mx) q r ->
  exists r',
    run_spec w v d k t None q r'
    /\ fst r = fst r'
    /\ written (snd r) = firstn (Z.to_nat mx) (written (snd r')).
Proof.
  intros Hmx H.
  destruct H as [Hne|He Hd Hnone|cap e He Hd Hv Hdur|cap s e He Hd Hv Hdur Hi
                 |cap s He Hd Hv Hdur Hi|cap s k0 l tl He Hd Hv Hdur Hi Hk Hl
                 |e He Hd Hmk].
  7:{ exists (Raise e, makedirs_trace d q).
      split; [now apply RunMakedirsRaises|]. split; [reflexivity|].
      cbn [snd]. rewrite written_makedirs_trace. now rewrite firstn_nil. }
  - exists (Ok false, [Print (ErrNotFound v)]).
    split; [now apply RunMissing|]. split; [reflexivity|].
    simpl. now rewrite firstn_nil.
  - exists (Ok false, head_trace w v d q ++ [Print ErrCannotOpen]).
    split; [now apply RunUnopened|]. split; [reflexivity|].
    cbn [snd]. rewrite written_app, written_head_trace. simpl.
    now rewrite firstn_nil.
  - exists (Raise e, head_trace w v d q ++ info_trace cap).
    split; [now apply RunDurationRaises|]. split; [reflexivity|].
    cbn [snd]. rewrite written_app, written_head_trace. simpl.
    now rewrite firstn_nil.
  - exists (Raise e, head_trace w v d q ++ info_trace cap ++ format_trace q s).
    split; [now apply RunIntervalRaises|]. split; [reflexivity|].
    cbn [snd]. rewrite !written_app, written_head_trace. simpl.
    now rewrite firstn_nil.
  - exists (Raise ZeroDivisionError,
            head_trace w v d q ++ info_trace cap ++ format_trace q s).
    split; [now apply RunZeroInterval|]. split; [reflexivity|].
    cbn [snd]. rewrite !written_app, written_head_trace. simpl.
    now rewrite firstn_nil.
  - destruct (while_loop_returns d k0 None (effective_quality q) (frames cap)
                start Hk) as [l0 Hl0].
    destruct (while_loop d k0 None (effective_quality q) (frames cap) start)
      as [r0 t0] eqn:Hfree.
    simpl in Hl0. subst r0.
    exists (Ok true,
            head_trace w v d q ++ info_trace cap ++ format_trace q s
            ++ settings_trace None cap k0 ++ t0 ++ footer_trace d l0).
    split; [now apply RunLoop|]. split; [reflexivity|].
    cbn [snd]. rewrite !written_loop_shape.
    pose proof (while_loop_limit_prefix d k0 (effective_quality q) Hk mx
                  (frames cap) start Hmx) as Hpre.
    rewrite Hl, Hfree in Hpre. cbn [snd] in Hpre. rewrite Hpre.
    change (saved_count start) with 0. now rewrite Z.sub_0_r.
Qed.

Lemma mod_opp_zero (a k : Z) : (a mod - k =? 0) = (a mod k =? 0).
Proof.
  destruct (Z.eqb_spec (a mod k) 0) as [H|H].
  - apply Z.eqb_eq. now apply Z_mod_zero_opp_r.
  - apply Z.eqb_neq. intros H'. apply H.
    apply Z_mod_zero_opp_r in H'. now rewrite Z.opp_involutive in H'.
Qed.

Lemma loop_body_opp {Frame : Type} (d : string) (k : Z) (m : option Z)
    (q : Z) (frame : Frame) (l : Locals) :
  loop_body d (- k) m q frame l = loop_body d k m q frame l.
Proof.
  unfold loop_body, py_mod.
  destruct (limit_reached m (saved_count l)); [reflexivity|].
  destruct (Z.eqb_spec k 0) as [->|Hk]; [reflexivity|].
  assert (Hk' : (- k =? 0) = false) by (apply Z.eqb_neq; lia).
  rewrite Hk'. cbn [lift bind]. now rewrite mod_opp_zero.
Qed.

Lemma while_loop_opp {Frame : Type} (d : string) (k : Z) (m : option Z)
    (q : Z) (cap : list Frame) : forall l,
  while_loop d (- k) m q cap l = while_loop d k m q cap l.
Proof.
  induction cap as [|frame cap IH]; intros l; [reflexivity|].
  rewrite !while_loop_cons, loop_body_opp.
  destruct (loop_body d k m q frame l) as [[[[|] l']|e] t]; try reflexivity.
  now rewrite IH.
Qed.

Lemma run_spec_opp {Frame : Type} (w : World Frame) (v d : string) (k : Z)
    (t : option float) (m : option Z) (q : Z) (r : M Frame bool) :
  run_spec w v d k t m q r ->
  exists r',
    run_spec w v d (- k) t m q r'
    /\ fst r' = fst r
    /\ written (snd r') = written (snd r).
Proof.
  intros H.
  destruct H as [Hne|He Hd Hnone|cap e He Hd Hv Hdur|cap s e He Hd Hv Hdur Hi
                 |cap s He Hd Hv Hdur Hi|cap s k0 l tl He Hd Hv Hdur Hi Hk Hl
                 |e He Hd Hmk].
  7:{ exists (Raise e, makedirs_trace d q).
      split; [now apply RunMakedirsRaises|now split]. }
  - exists (Ok false, [Print (ErrNotFound v)]).
    split; [now apply RunMissing|now split].
  - exists (Ok false, head_trace w v d q ++ [Print ErrCannotOpen]).
    split; [now apply RunUnopened|now split].
  - exists (Raise e, head_trace w v d q ++ info_trace cap).
    split; [now apply RunDurationRaises|now split].
  - destruct (actual_frame_interval_cases (CAP_PROP_FPS cap) t)
      as [Hkeep|[(fi & _ & Hfi)|(e' & He')]].
    + rewrite Hkeep in Hi. discriminate.
    + rewrite Hfi in Hi. discriminate.
    + exists (Raise e,
              head_trace w v d q ++ info_trace cap ++ format_trace q s).
      split; [|now split].
      apply RunIntervalRaises; try assumption.
      now rewrite He', <- (He' k).
  - destruct (actual_frame_interval_cases (CAP_PROP_FPS cap) t)
      as [Hkeep|[(fi & Hpos & Hfi)|(e' & He')]].
    + rewrite Hkeep in Hi. injection Hi as ->.
      exists (Raise ZeroDivisionError,
              head_trace w v d q ++ info_trace cap ++ format_trace q s).
      split; [|now split].
      apply RunZeroInterval; try assumption.
      now rewrite Hkeep.
    + rewrite Hfi in Hi. injection Hi as ->. lia.
    + rewrite He' in Hi. discriminate.
  - destruct (actual_frame_interval_cases (CAP_PROP_FPS cap) t)
      as [Hkeep|[(fi & Hpos & Hfi)|(e' & He')]].
    + rewrite Hkeep in Hi. injection Hi as <-.
      exists (Ok true,
              head_trace w v d q ++ info_trace cap ++ format_trace q s
              ++ settings_trace m cap (- k) ++ tl ++ footer_trace d l).
      split; [|split; [reflexivity|]].
      * apply RunLoop; try assumption; [apply Hkeep|lia|].
        now rewrite while_loop_opp.
      * cbn [snd]. now rewrite !written_loop_shape.
    + exists (Ok true,
              head_trace w v d q ++ info_trace cap ++ format_trace q s
              ++ settings_trace m cap k0 ++ tl ++ footer_trace d l).
      split; [|now split].
      apply RunLoop; try assumption.
      now rewrite Hfi, <- (Hfi k).
    + rewrite He' in Hi. discriminate.
Qed.

(** * Calls other than [imwrite]: capture, directory, progress bar *)

Ltac static_counts :=
  cbn [fst snd]; rewrite ?count_event_app;
  unfold count_event, head_trace, makedirs_trace, info_trace, format_trace,
    settings_trace, footer_trace;
  repeat match goal with
         | |- context [if (?a || ?b)%bool then _ else _] =>
             destruct (a || b)%bool
         | |- context [path_exists ?w ?d] => destruct (path_exists w d)
         end;
  try reflexivity.

Lemma while_loop_counts {Frame : Type} (d : string) (k : Z) (m : option Z)
    (q : Z) (cap : list Frame) (l l' : Locals) (t : trace Frame) :
  while_loop d k m q cap l = (Ok l', t) ->
  count_event is_release t = 0%nat
  /\ count_event is_open t = 0%nat
  /\ count_event is_makedirs t = 0%nat
  /\ count_event is_tqdm t = 0%nat
  /\ count_event is_pbar_close t = 0%nat
  /\ count_event is_pbar_update t = List.length (written t).
Proof.
  intros Hl. pose proof (while_loop_trace d k m q cap l) as Ht.
  rewrite Hl in Ht. cbn [snd] in Ht.
  rewrite Ht at 1 2 3 4 5 6.
  rewrite !count_event_saves by reflexivity.
  now rewrite count_updates_saves.
Qed.

(** * Edge values of the frame rates *)

(** Rounding keeps the sign it is given. *)
Lemma binary_round_aux_sign (s : bool) (mx ex : Z) (lx : location) :
  match binary_round_aux PyFloat.prec PyFloat.emax s mx ex lx with
  | S754_zero s' | S754_infinity s' | S754_finite s' _ _ => s' = s
  | S754_nan => True
  end.
Proof.
  unfold binary_round_aux.
  destruct (shr_fexp _ _ mx ex lx) as [mrs e].
  destruct (shr_fexp _ _ _ e loc_Exact) as [mrs' e'].
  destruct (shr_m mrs') as [|m|m]; [reflexivity| |exact I].
  destruct (e' <=? PyFloat.emax - PyFloat.prec); reflexivity.
Qed.

(** The integer part of a negative float is not positive. *)
Lemma py_int_negative (x : float) (n : Z) :
  match x with
  | S754_zero s | S754_infinity s | S754_finite s _ _ => s = true
  | S754_nan => True
  end ->
  py_int x = Ok n -> n <= 0.
Proof.
  destruct x as [s|s| |s m e]; simpl; try discriminate.
  - intros _ [= <-]. lia.
  - intros -> [= <-]. simpl.
    pose proof (Z.shiftl_nonneg (Zpos m) e). lia.
Qed.

(** A negative target rate against a positive frame rate gives the
    interval 1, when [int()] yields one. *)
Lemma negative_target_interval (original_fps target : float)
    (frame_interval fi : Z) :
  PyFloat.ltb target PyFloat.zero = true ->
  PyFloat.ltb PyFloat.zero original_fps = true ->
  actual_frame_interval original_fps frame_interval (Some target) = Ok fi ->
  fi = 1.
Proof.
  intros Hneg Hpos. unfold actual_frame_interval, py_fdiv.
  assert (Ht : match target with
               | S754_infinity true | S754_finite true _ _ => True
               | _ => False
               end)
    by (destruct target as [[|]|[|]| |[|] m e]; try discriminate; exact I).
  assert (Hf : match original_fps with
               | S754_infinity false | S754_finite false _ _ => True
               | _ => False
               end)
    by (destruct original_fps as [[|]|[|]| |[|] m e];
        try discriminate; exact I).
  assert (Hq : match PyFloat.div original_fps target with
               | S754_zero s | S754_infinity s | S754_finite s _ _ =>
                   s = true
               | S754_nan => True
               end).
  { destruct target as [[|]|[|]| |[|] mt et]; try contradiction;
      destruct original_fps as [[|]|[|]| |[|] mf ef]; try contradiction;
      try exact I; try reflexivity.
    unfold PyFloat.div, SFdiv.
    destruct (SFdiv_core_binary _ _ _ _ _ _) as [[mz ez] lz].
    apply (binary_round_aux_sign true mz ez lz). }
  assert (Hover : PyFloat.truthy target && PyFloat.ltb target original_fps
                  = true).
  { destruct target as [[|]|[|]| |[|] mt et]; try contradiction;
      destruct original_fps as [[|]|[|]| |[|] mf ef]; try contradiction;
      reflexivity. }
  assert (Hnz : PyFloat.eqb target PyFloat.zero = false)
    by (destruct target as [[|]|[|]| |[|] mt et]; try contradiction;
        reflexivity).
  rewrite Hover, Hnz.
  destruct (py_int (PyFloat.div original_fps target)) as [n|e] eqn:En;
    [|discriminate].
  intros [= <-]. apply (py_int_negative _ _ Hq) in En. lia.
Qed.


(** * [extract_by_time_intervals] as a run of [extract_frames] *)

Lemma extract_by_time_intervals_run {Frame : Type} (w : World Frame)
    (v d : string) (s : number) (q : Z) (cap : Video Frame) (x : float)
    (n : Z) :
  videos w v = Some cap ->
  py_mul_float (CAP_PROP_FPS cap) s = Ok x ->
  py_int x = Ok n ->
  extract_by_time_intervals w v d s q
  = (fst (extract_frames w v d (Z.max 1 n) None None q),
     VideoCapture v :: snd (extract_frames w v d (Z.max 1 n) None None q)).
Proof.
  intros Hv Hx Hn. unfold extract_by_time_intervals.
  rewrite Hv, Hx. cbn [bind emit lift]. rewrite Hn. cbn [bind emit lift].
  now destruct (extract_frames w v d (Z.max 1 n) None None q).
Qed.

Lemma extract_frames_release_le_open {Frame : Type} (w : World Frame)
    (v d : string) (k : Z) (t : option float) (m : option Z) (q : Z) :
  (count_event is_release (snd (extract_frames w v d k t m q))
   <= count_event is_open (snd (extract_frames w v d k t m q)))%nat
  /\ (fst (extract_frames w v d k t m q) = Ok true ->
        count_event is_release (snd (extract_frames w v d k t m q)) = 1%nat
        /\ count_event is_open (snd (extract_frames w v d k t m q)) = 1%nat).
Proof.
  pose proof (extract_frames_run_spec w v d k t m q) as Hrun.
  destruct Hrun as [Hne|He Hd Hnone|cap e' He Hd Hv Hdur
                    |cap s e' He Hd Hv Hdur Hi|cap s He Hd Hv Hdur Hi
                    |cap s k0 l tl He Hd Hv Hdur Hi Hk Hl|e' He Hd Hmk].
  7:{ split; [|discriminate]. static_counts; simpl; lia. }
  - split; [unfold count_event; simpl; lia|discriminate].
  - split; [|discriminate]. static_counts; simpl; lia.
  - split; [|discriminate]. static_counts; simpl; lia.
  - split; [|discriminate]. static_counts; simpl; lia.
  - split; [|discriminate]. static_counts; simpl; lia.
  - destruct (while_loop_counts _ _ _ _ _ _ _ _ Hl)
      as (Hrel & Hopen & _ & _ & _ & _).
    split.
    + cbn [snd]. rewrite !count_event_app, Hrel, Hopen.
      static_counts; simpl; lia.
    + intros _. cbn [snd]. rewrite !count_event_app, Hrel, Hopen.
      split; static_counts.
Qed.

(** * The printed lines *)

Lemma stdout_saves {Frame : Type} (ws : list (string * Frame * Z)) :
  stdout (flat_map save_events ws) = [].
Proof. induction ws as [|[[p f] q] ws IH]; [reflexivity|exact IH]. Qed.


(** * Reaching the loop *)

(** On a video that exists and opens, with a duration and a non-zero
    interval, the run is the one through the loop. *)
Lemma run_reaches_loop {Frame : Type} (w : World Frame) (v d : string)
    (k : Z) (t : option float) (m : option Z) (q : Z) (cap : Video Frame)
    (fi : Z) :
  path_exists w v = true ->
  valid_path d = true ->
  videos w v = Some cap ->
  representable (CAP_PROP_FRAME_COUNT cap) = true ->
  PyFloat.truthy (CAP_PROP_FPS cap) = true ->
  actual_frame_interval (CAP_PROP_FPS cap) k t = Ok fi ->
  fi <> 0 ->
  exists seconds l tl,
    py_truediv_int_float (CAP_PROP_FRAME_COUNT cap) (CAP_PROP_FPS cap)
      = Ok seconds
    /\ while_loop d fi m (effective_quality q) (frames cap) start
       = (Ok l, tl)
    /\ extract_frames w v d k t m q
       = (Ok true,
          head_trace w v d q ++ info_trace cap ++ format_trace q seconds
          ++ settings_trace m cap fi ++ tl ++ footer_trace d l).
Proof.
  intros He Hd Hv Hrep Hfps Hfi Hnz.
  destruct (duration_defined _ _ Hrep Hfps) as [seconds Hdur].
  destruct (while_loop_returns d fi m (effective_quality q) (frames cap)
              start Hnz) as [l Hl].
  destruct (while_loop d fi m (effective_quality q) (frames cap) start)
    as [r0 tl] eqn:Hloop.
  simpl in Hl. subst r0.
  exists seconds, l, tl. split; [exact Hdur|]. split; [reflexivity|].
  apply (run_spec_functional w v d k t m q);
    [apply extract_frames_run_spec|].
  now apply RunLoop.
Qed.

Lemma select_from_one {Frame : Type} (frames : list Frame) : forall i,
  select_from 1 i frames = frames.
Proof.
  induction frames as [|f fs IH]; intros i; [reflexivity|].
  cbn [select_from]. rewrite Z.mod_1_r. cbn [Z.eqb]. now rewrite IH.
Qed.

(** The frames of a run through the loop: the selected ones, as far as
    the limit lets them through. *)
Lemma extract_frames_written_frames {Frame : Type} (w : World Frame)
    (v d : string) (k : Z) (t : option float) (m : option Z) (q : Z)
    (cap : Video Frame) (fi : Z) :
  path_exists w v = true ->
  valid_path d = true ->
  videos w v = Some cap ->
  representable (CAP_PROP_FRAME_COUNT cap) = true ->
  PyFloat.truthy (CAP_PROP_FPS cap) = true ->
  actual_frame_interval (CAP_PROP_FPS cap) k t = Ok fi ->
  fi <> 0 ->
  fst (extract_frames w v d k t m q) = Ok true
  /\ written_frames (snd (extract_frames w v d k t m q))
     = limited m (select_from fi 0 (frames cap)).
Proof.
  intros He Hd Hv Hrep Hfps Hfi Hnz.
  destruct (run_reaches_loop w v d k t m q cap fi He Hd Hv Hrep Hfps Hfi
              Hnz) as (seconds & l & tl & _ & Hloop & ->).
  split; [reflexivity|].
  unfold written_frames. cbn [snd]. rewrite written_loop_shape.
  pose proof (while_loop_selects d fi (effective_quality q) Hnz (frames cap)
                start) as Hsel.
  unfold written_frames in Hsel. change (frame_count start) with 0 in Hsel.
  unfold limited. destruct m as [mx|].
  - destruct (Z.eqb_spec mx 0) as [->|Hmx].
    + rewrite while_loop_zero_limit in Hloop. rewrite Hloop in Hsel.
      exact Hsel.
    + pose proof (while_loop_limit_prefix d fi (effective_quality q) Hnz mx
                    (frames cap) start Hmx) as Hpre.
      rewrite Hloop in Hpre. cbn [snd] in Hpre.
      change (saved_count start) with 0 in Hpre.
      rewrite Z.sub_0_r in Hpre.
      rewrite Hpre, <- Hsel. symmetry. apply firstn_map.
  - rewrite Hloop in Hsel. exact Hsel.
Qed.






(** The paths of any run are the sequential ones. *)
Lemma extract_frames_paths {Frame : Type} (w : World Frame) (v d : string)
    (k : Z) (t : option float) (m : option Z) (q : Z) :
  written_paths (snd (extract_frames w v d k t m q))
  = sequential_paths d 0
      (List.length (written (snd (extract_frames w v d k t m q)))).
Proof.
  pose proof (extract_frames_run_spec w v d k t m q) as H.
  apply run_spec_written in H
    as [[_ Hw]|(cap & kk & l & tl & _ & _ & _ & Hloop & _ & Hw & _)];
    unfold written_paths; rewrite Hw; [reflexivity|].
  pose proof (while_loop_written d kk m (effective_quality q) (frames cap)
                start) as (Hp & _ & _).
  now rewrite Hloop in Hp.
Qed.

(** * The command line *)

Lemma main_run {Frame : Type} (w : World Frame) (args : Cli.Namespace) :
  snd (Cli.main w args)
  = snd (extract_frames w (Cli.video_path args) (Cli.output args)
                        (Cli.interval args) (Cli.fps args)
                        (Cli.max_frames args) (Cli.quality args))
  /\ fst (Cli.main w args)
     = match fst (extract_frames w (Cli.video_path args) (Cli.output args)
                                 (Cli.interval args) (Cli.fps args)
                                 (Cli.max_frames args) (Cli.quality args))
       with
       | Ok _ => Ok tt
       | Raise e => Raise e
       end.
Proof.
  unfold Cli.main.
  destruct (extract_frames _ _ _ _ _ _ _) as [[b|e] t]; simpl;
    rewrite ?List.app_nil_r; now split.
Qed.

(** * Prefixes of the sequential paths *)

Lemma firstn_count_from (n1 n2 : nat) : forall start,
  (n1 <= n2)%nat -> firstn n1 (count_from start n2) = count_from start n1.
Proof.
  revert n2. induction n1 as [|n1 IH]; intros n2 start Hle; [reflexivity|].
  destruct n2 as [|n2]; [lia|]. simpl. f_equal. apply IH. lia.
Qed.

Lemma stdout_head_trace {Frame : Type} (w : World Frame) (v d : string)
    (q : Z) :
  stdout (head_trace w v d q)
  = if (q <? 1) || (q >? 100) then [WarnQuality] else [].
Proof.
  unfold head_trace.
  destruct ((q <? 1) || (q >? 100)); destruct (path_exists w d); reflexivity.
Qed.


(** * Claims *)

(** ** The number of frames saved *)




(** A header that announces [- 2 ^ 63] frames, as a capture opened on a
    still image may: the count converts to a float, and the ten frames
    are extracted at interval three as before. *)
Example int64_min_frame_count :
  let cap := relabelled (- 2 ^ 63) (Sample.clip 10 Sample.fps30) in
  let r := extract_frames (world_with cap) "video.avi" "out" 3 None None 95 in
  representable (CAP_PROP_FRAME_COUNT cap) = true
  /\ fst r = Ok true
  /\ written_frames (snd r) = [0; 3; 6; 9]%nat.
Proof. repeat split; reflexivity. Qed.

(** ** An output directory that names nothing *)

(** With an empty [output_dir] the call raises at [os.makedirs], before
    the capture is opened; with a NUL character in it likewise. *)
Example empty_output_dir_raises :
  let w := Sample.world 10 Sample.fps30 in
  extract_frames w "video.avi" "" 3 None None 95
    = (Raise FileNotFoundError, [MakeDirs ""])
  /\ extract_frames w "video.avi" (String "000"%char "out") 3 None None 95
     = (Raise ValueError, [MakeDirs (String "000"%char "out")])
  /\ extract_frames w "" "out" 3 None None 95
     = (Ok false, [Print (ErrNotFound "")]).
Proof. repeat split; reflexivity. Qed.

(** ** Error paths and the quality fallback *)






(** C6. Every image that [extract_frames] hands to the encoder carries a
    quality between 1 and 100, whatever [jpg_quality] was passed. *)
Theorem C6_quality_in_range {Frame : Type} (w : World Frame)
    (video_path output_dir : string) (frame_interval : Z)
    (target_fps : option float) (max_frames : option Z) (jpg_quality : Z) :
  Forall (fun q => 1 <= q <= 100)
         (written_qualities
            (snd (extract_frames w video_path output_dir frame_interval
                                 target_fps max_frames jpg_quality))).
Proof.
  eapply Forall_impl; [|apply extract_frames_qualities].
  intros q ->. apply effective_quality_range.
Qed.

(** ** File names *)

(** C5. The files of a run are [frame_000000.jpg], [frame_000001.jpg], ...
    under the output directory, written in that order, one per saved
    frame, and no path occurs twice. The index is padded with zeros to six
    digits. A run that returns reports the number of files as its count of
    saved frames. *)
Theorem C5_sequential_file_names {Frame : Type} (w : World Frame)
    (video_path output_dir : string) (frame_interval : Z)
    (target_fps : option float) (max_frames : option Z) (jpg_quality : Z) :
  let r := extract_frames w video_path output_dir frame_interval
                          target_fps max_frames jpg_quality in
  let n := List.length (written (snd r)) in
  written_paths (snd r)
  = map (fun i => path_join output_dir
                    ("frame_" ++ format_06d i ++ ".jpg")%string)
        (count_from 0 n)
  /\ NoDup (written_paths (snd r))
  /\ (forall i, 0 <= i < 1000000 -> String.length (format_06d i) = 6%nat)
  /\ (fst r = Ok true ->
        exists lines,
          stdout (snd r)
          = lines ++ [DoneHeader; DoneSaved (Z.of_nat n);
                      DoneOutputDir output_dir]).
Proof.
  intros r n.
  pose proof (extract_frames_run_spec w video_path output_dir
                frame_interval target_fps max_frames jpg_quality) as H.
  fold r in H.
  apply run_spec_written in H
    as [[Hres Hw]|(cap & kk & l & tl & _ & _ & _ & Hloop & _ & Hw
                   & lines & Hout)].
  - subst n. unfold written_paths. rewrite Hw. simpl.
    repeat split; [constructor|apply format_06d_width|].
    intros Hok. contradiction.
  - pose proof (while_loop_written output_dir kk max_frames
                  (effective_quality jpg_quality) (frames cap) start)
      as (Hp & _ & Hs).
    rewrite Hloop in Hp, Hs. cbn [fst snd] in Hp, Hs.
    specialize (Hs l eq_refl). simpl in Hs.
    assert (Hpaths : written_paths (snd r) = sequential_paths output_dir 0 n).
    { subst n. unfold written_paths in *. rewrite Hw. exact Hp. }
    split; [exact Hpaths|]. split; [|split].
    + rewrite Hpaths. apply sequential_paths_NoDup. lia.
    + apply format_06d_width.
    + intros _. exists lines. rewrite Hout. subst n. rewrite Hw, Hs.
      reflexivity.
Qed.

(** The names for small indices, as Python prints them with [06d]. *)
Example frame_filename_examples :
  map frame_filename [0; 1; 17; 999999; 1000000]
  = ["frame_000000.jpg"; "frame_000001.jpg"; "frame_000017.jpg";
     "frame_999999.jpg"; "frame_1000000.jpg"]%string.
Proof. reflexivity. Qed.

(** ** The frame limit *)

(** C4, as the code has it. Under a limit [max_frames >= 1], at every head
    of the loop [saved_count] is at most [max_frames] and counts the files
    written so far; so it is when the loop ends, and a run never writes
    more than [max_frames] files. *)
Theorem C4_saved_within_limit {Frame : Type} (mx : Z) :
  1 <= mx ->
  (forall (output_dir : string) (frame_interval jpg_quality : Z)
          (cap : list Frame) (s : loop_state Frame),
      loop_reaches output_dir frame_interval (Some mx) jpg_quality
                   (cap, start, []) s ->
      ls_saved s <= mx /\ Z.of_nat (ls_files s) = ls_saved s)
  /\ (forall (output_dir : string) (frame_interval jpg_quality : Z)
             (cap : list Frame) (l : Locals),
        fst (while_loop output_dir frame_interval (Some mx) jpg_quality
                        cap start) = Ok l ->
        saved_count l <= mx)
  /\ (forall (w : World Frame) (video_path output_dir : string)
             (frame_interval : Z) (target_fps : option float)
             (jpg_quality : Z),
        Z.of_nat (List.length
                    (written
                       (snd (extract_frames w video_path output_dir
                               frame_interval target_fps (Some mx)
                               jpg_quality)))) <= mx).
Proof.
  intros Hmx.
  assert (Hinv : forall (d : string) (k q : Z) (cap : list Frame)
                        (s : loop_state Frame),
            loop_reaches d k (Some mx) q (cap, start, []) s ->
            ls_saved s <= mx /\ Z.of_nat (ls_files s) = ls_saved s).
  { intros d k q cap s Hreach.
    apply (loop_reaches_invariant d k (Some mx) q mx (cap, start, []) s);
      try assumption; try reflexivity.
    unfold ls_saved, ls_files. simpl. lia. }
  assert (Hend : forall (d : string) (k q : Z) (cap : list Frame) r t,
            while_loop d k (Some mx) q cap start = (r, t) ->
            Z.of_nat (List.length (written t)) <= mx
            /\ forall l, r = Ok l -> saved_count l <= mx).
  { intros d k q cap r t Hloop.
    destruct (while_loop_reaches d k (Some mx) q cap start [] r t Hloop)
      as (cap' & l' & Hreach & Hres).
    apply Hinv in Hreach. unfold ls_saved, ls_files in Hreach.
    simpl in Hreach. split; [lia|].
    intros l Hl. rewrite (Hres l Hl). lia. }
  split; [exact Hinv|]. split.
  - intros d k q cap l Hl.
    destruct (while_loop d k (Some mx) q cap start) as [r t] eqn:Hloop.
    apply Hend in Hloop as [_ Hloop]. now apply Hloop.
  - intros w v d k t q.
    pose proof (extract_frames_run_spec w v d k t (Some mx) q) as H.
    apply run_spec_written in H
      as [[_ Hw]|(cap & kk & l & tl & _ & _ & _ & Hloop & _ & Hw & _)];
      rewrite Hw; [simpl; lia|].
    now apply Hend in Hloop as [Hloop _].
Qed.

(** C4 at a limit of two on a clip of ten frames, every third frame. *)
Lemma C4_saved_within_limit_witness :
  1 <= 2
  /\ Z.of_nat (List.length
                 (written
                    (snd (extract_frames (Sample.world 10 Sample.fps30)
                            "video.avi" "out" 3 None (Some 2) 95)))) <= 2.
Proof.
  assert (H : 1 <= 2) by lia.
  split; [exact H|].
  destruct (@C4_saved_within_limit nat 2 H) as (_ & _ & Hrun).
  apply Hrun.
Defined.

(** C4 as stated fails when the limit given is 0: four files are written. *)
Lemma C4_zero_limit_counterexample :
  let r := extract_frames (Sample.world 10 Sample.fps30)
                          "video.avi" "out" 3 None (Some 0) 95 in
  fst r = Ok true
  /\ List.length (written (snd r)) = 4%nat
  /\ ~ Z.of_nat (List.length (written (snd r))) <= 0.
Proof.
  split; [reflexivity|]. split; [reflexivity|]. vm_compute. congruence.
Qed.



(** With [max_frames = 0] every selected frame is saved, not none. *)
Example zero_limit_saves_all :
  written_paths
    (snd (extract_frames (Sample.world 4 Sample.fps30) "video.avi" "out" 2
                         None (Some 0) 95))
  = ["out/frame_000000.jpg"; "out/frame_000001.jpg"]%string.
Proof. reflexivity. Qed.

(** ** The frame interval *)






(** ** [extract_by_time_intervals] *)

(** C10. On a video that opens, [extract_by_time_intervals] is
    [extract_frames] called with the interval
    [max(1, int(fps * interval_seconds))], no [target_fps] and no
    [max_frames]: same result, same printed lines, same files; its own
    calls differ by the one capture it opens first. Where the interval
    expression raises, so does the call, before anything else happens. *)
Theorem C10_time_intervals {Frame : Type} (w : World Frame)
    (video_path output_dir : string) (interval_seconds : number)
    (jpg_quality : Z) (cap : Video Frame) :
  videos w video_path = Some cap ->
  let r := extract_by_time_intervals w video_path output_dir
                                     interval_seconds jpg_quality in
  match py_mul_float (CAP_PROP_FPS cap) interval_seconds with
  | Ok x =>
      match py_int x with
      | Ok n =>
          let r' := extract_frames w video_path output_dir (Z.max 1 n)
                                   None None jpg_quality in
          fst r = fst r'
          /\ written (snd r) = written (snd r')
          /\ stdout (snd r) = stdout (snd r')
          /\ snd r = VideoCapture video_path :: snd r'
      | Raise e => r = (Raise e, [VideoCapture video_path])
      end
  | Raise e => r = (Raise e, [VideoCapture video_path])
  end.
Proof.
  intros Hvid r. subst r. unfold extract_by_time_intervals.
  rewrite Hvid.
  destruct (py_mul_float (CAP_PROP_FPS cap) interval_seconds) as [x|e];
    cbn [bind emit lift]; [|reflexivity].
  destruct (py_int x) as [n|e]; cbn [bind emit lift]; [|reflexivity].
  destruct (extract_frames w video_path output_dir (Z.max 1 n) None None
              jpg_quality) as [res t].
  repeat split.
Qed.

(** C10 on a clip at 30 frames per second, one frame every two seconds. *)
Lemma C10_time_intervals_witness :
  let w := Sample.world 100 Sample.fps30 in
  let r := extract_by_time_intervals w "video.avi" "out" (PyInt 2) 90 in
  let r' := extract_frames w "video.avi" "out" 60 None None 90 in
  videos w "video.avi" = Some (Sample.clip 100 Sample.fps30)
  /\ fst r = fst r'
  /\ written (snd r) = written (snd r')
  /\ stdout (snd r) = stdout (snd r')
  /\ snd r = VideoCapture "video.avi" :: snd r'.
Proof.
  assert (Hvid : videos (Sample.world 100 Sample.fps30) "video.avi"
                 = Some (Sample.clip 100 Sample.fps30)) by reflexivity.
  split; [exact Hvid|].
  exact (C10_time_intervals (Sample.world 100 Sample.fps30) "video.avi" "out"
           (PyInt 2) 90 (Sample.clip 100 Sample.fps30) Hvid).
Defined.

(** * Further properties *)

(** ** Runs: frames, limit and sign of the interval *)

(** X1. The [j]-th file of a run (counting from 0) is
    [frame_{j:06d}.jpg] under the output directory and holds frame number
    [j * fi] of the video, [fi >= 1] being the interval used; it is
    written at the effective quality. *)
Theorem X1_file_holds_frame {Frame : Type} (w : World Frame)
    (video_path output_dir : string) (frame_interval : Z)
    (target_fps : option float) (max_frames : option Z) (jpg_quality : Z)
    (cap : Video Frame) (fi : Z) (j : nat) (p : string) (f : Frame)
    (q : Z) :
  videos w video_path = Some cap ->
  actual_frame_interval (CAP_PROP_FPS cap) frame_interval target_fps
    = Ok fi ->
  1 <= fi ->
  nth_error
    (written (snd (extract_frames w video_path output_dir frame_interval
                                  target_fps max_frames jpg_quality))) j
    = Some (p, f, q) ->
  p = path_join output_dir (frame_filename (Z.of_nat j))
  /\ nth_error (frames cap) (j * Z.to_nat fi) = Some f
  /\ q = effective_quality jpg_quality.
Proof.
  intros Hvid Hfi Hpos Hnth.
  pose proof (extract_frames_run_spec w video_path output_dir frame_interval
                target_fps max_frames jpg_quality) as Hrun.
  apply run_spec_written in Hrun
    as [[_ Hw]|(cap' & kk & l & tl & Hvid' & Hkk & _ & Hloop & _ & Hw & _)];
    rewrite Hw in Hnth.
  - now rewrite nth_error_nil in Hnth.
  - rewrite Hvid in Hvid'. injection Hvid' as <-.
    rewrite Hfi in Hkk. injection Hkk as <-.
    apply (while_loop_nth output_dir fi max_frames
             (effective_quality jpg_quality) (frames cap) j p f q Hpos).
    now rewrite Hloop.
Qed.

(** X1 on a clip of ten frames, every third frame: the third file,
    [frame_000002.jpg], holds frame 6. *)
Lemma X1_file_holds_frame_witness :
  let w := Sample.world 10 Sample.fps30 in
  let cap := Sample.clip 10 Sample.fps30 in
  let r := extract_frames w "video.avi" "out" 3 None None 95 in
  (videos w "video.avi" = Some cap
   /\ actual_frame_interval (CAP_PROP_FPS cap) 3 None = Ok 3
   /\ 1 <= 3
   /\ nth_error (written (snd r)) 2 = Some ("out/frame_000002.jpg", 6%nat, 95))
  /\ "out/frame_000002.jpg" = path_join "out" (frame_filename (Z.of_nat 2))
  /\ nth_error (frames cap) (2 * Z.to_nat 3) = Some 6%nat
  /\ 95 = effective_quality 95.
Proof.
  split.
  - repeat split; reflexivity || lia.
  - apply (X1_file_holds_frame (Sample.world 10 Sample.fps30) "video.avi"
             "out" 3 None None 95 (Sample.clip 10 Sample.fps30) 3 2
             "out/frame_000002.jpg" 6%nat 95);
      reflexivity || lia.
Defined.

(** X2. A limit other than 0 only truncates: the call with
    [max_frames = mx] returns what the call without limit returns and
    writes the first [mx] of its files (none when [mx] is negative). *)
Theorem X2_limit_truncates {Frame : Type} (w : World Frame)
    (video_path output_dir : string) (frame_interval : Z)
    (target_fps : option float) (mx : Z) (jpg_quality : Z) :
  mx <> 0 ->
  let run m := extract_frames w video_path output_dir frame_interval
                              target_fps m jpg_quality in
  fst (run (Some mx)) = fst (run None)
  /\ written (snd (run (Some mx)))
     = firstn (Z.to_nat mx) (written (snd (run None))).
Proof.
  intros Hmx run. unfold run.
  pose proof (extract_frames_run_spec w video_path output_dir frame_interval
                target_fps (Some mx) jpg_quality) as H.
  apply (run_spec_without_limit _ _ _ _ _ _ _ _ Hmx) in H
    as (r' & Hfree & Hres & Hw).
  rewrite (run_spec_functional _ _ _ _ _ _ _ _ _ Hfree
             (extract_frames_run_spec w video_path output_dir frame_interval
                target_fps None jpg_quality)) in Hres, Hw.
  now split.
Qed.

(** X2 at a limit of two, and at a limit of minus one, on ten frames. *)
Lemma X2_limit_truncates_witness :
  let run m := extract_frames (Sample.world 10 Sample.fps30) "video.avi"
                              "out" 3 None m 95 in
  (2 <> 0
   /\ written_paths (snd (run (Some 2)))
      = ["out/frame_000000.jpg"; "out/frame_000001.jpg"]
   /\ written (snd (run (Some 2))) = firstn 2 (written (snd (run None))))
  /\ (-1 <> 0
      /\ fst (run (Some (-1))) = Ok true
      /\ written (snd (run (Some (-1)))) = []).
Proof.
  assert (H2 : 2 <> 0) by lia.
  assert (H1 : -1 <> 0) by lia.
  destruct (X2_limit_truncates (Sample.world 10 Sample.fps30) "video.avi"
              "out" 3 None 2 95 H2) as (_ & Hw2).
  destruct (X2_limit_truncates (Sample.world 10 Sample.fps30) "video.avi"
              "out" 3 None (-1) 95 H1) as (Hr1 & Hw1).
  split.
  - split; [exact H2|]. split; [reflexivity|exact Hw2].
  - split; [exact H1|]. split; [exact Hr1|exact Hw1].
Defined.

(** X3. The sign of [frame_interval] does not matter for what is saved:
    the call with [- frame_interval] returns the same and makes the same
    [imwrite] calls. A negative interval is not rejected. *)
Theorem X3_interval_sign {Frame : Type} (w : World Frame)
    (video_path output_dir : string) (frame_interval : Z)
    (target_fps : option float) (max_frames : option Z) (jpg_quality : Z) :
  let run k := extract_frames w video_path output_dir k target_fps
                              max_frames jpg_quality in
  fst (run (- frame_interval)) = fst (run frame_interval)
  /\ written (snd (run (- frame_interval)))
     = written (snd (run frame_interval)).
Proof.
  intros run. unfold run.
  pose proof (extract_frames_run_spec w video_path output_dir frame_interval
                target_fps max_frames jpg_quality) as H.
  apply run_spec_opp in H as (r' & Hopp & Hres & Hw).
  rewrite (run_spec_functional _ _ _ _ _ _ _ _ _ Hopp
             (extract_frames_run_spec w video_path output_dir
                (- frame_interval) target_fps max_frames jpg_quality))
    in Hres, Hw.
  now split.
Qed.

(** An interval of minus three saves frames 0, 3, 6 and 9, while the
    estimate printed is negative. *)
Example negative_interval_run :
  let r := extract_frames (Sample.world 10 Sample.fps30) "video.avi" "out"
                          (-3) None None 95 in
  fst r = Ok true
  /\ written_frames (snd r) = [0; 3; 6; 9]%nat
  /\ In (SettingsEstimated (-4)) (stdout (snd r)).
Proof. split; [reflexivity|]. split; [reflexivity|]. vm_compute. tauto. Qed.

(** ** Calls other than [imwrite]: capture, directory, progress bar *)




(** X6. The output directory is created exactly when the video file
    exists and the directory does not, once, before the capture is
    opened: also when the video then fails to open or the call raises,
    never when the video file is missing. *)
Theorem X6_directory_creation {Frame : Type} (w : World Frame)
    (video_path output_dir : string) (frame_interval : Z)
    (target_fps : option float) (max_frames : option Z) (jpg_quality : Z) :
  let r := extract_frames w video_path output_dir frame_interval target_fps
                          max_frames jpg_quality in
  count_event is_makedirs (snd r)
  = (if path_exists w video_path && negb (path_exists w output_dir)
     then 1%nat else 0%nat)
  /\ forall dir, In (MakeDirs dir) (snd r) -> dir = output_dir.
Proof.
  intros r.
  pose proof (extract_frames_run_spec w video_path output_dir frame_interval
                target_fps max_frames jpg_quality) as Hrun.
  fold r in Hrun.
  assert (Hhead : forall dir,
            In (MakeDirs dir)
               (head_trace w video_path output_dir jpg_quality) ->
            dir = output_dir).
  { intros dir. unfold head_trace.
    destruct ((jpg_quality <? 1) || (jpg_quality >? 100));
      destruct (path_exists w output_dir); simpl;
      intuition (discriminate || congruence). }
  destruct Hrun as [Hne|He Hd Hnone|cap e' He Hd Hv Hdur
                    |cap s e' He Hd Hv Hdur Hi|cap s He Hd Hv Hdur Hi
                    |cap s k l t He Hd Hv Hdur Hi Hk Hl|e' He Hd Hmk];
    cbn [snd].
  7:{ rewrite He, (path_exists_invalid w _ Hd). split; [static_counts|].
      intros dir H. unfold makedirs_trace in H.
      destruct ((jpg_quality <? 1) || (jpg_quality >? 100)); simpl in H;
        intuition (discriminate || congruence). }
  - rewrite Hne. split; [reflexivity|].
    intros dir H. simpl in H. intuition discriminate.
  - rewrite He. split; [static_counts|].
    intros dir H. apply in_app_or in H as [H|H]; [now apply Hhead|].
    simpl in H. intuition discriminate.
  - rewrite He. split; [static_counts|].
    intros dir H. apply in_app_or in H as [H|H]; [now apply Hhead|].
    simpl in H. intuition discriminate.
  - rewrite He. split; [static_counts|].
    intros dir H. apply in_app_or in H as [H|H]; [now apply Hhead|].
    simpl in H. intuition discriminate.
  - rewrite He. split; [static_counts|].
    intros dir H. apply in_app_or in H as [H|H]; [now apply Hhead|].
    simpl in H. intuition discriminate.
  - rewrite He.
    destruct (while_loop_counts _ _ _ _ _ _ _ _ Hl)
      as (_ & _ & Hmk & _ & _ & _).
    split.
    + rewrite !count_event_app, Hmk. static_counts.
    + intros dir H. apply in_app_or in H as [H|H]; [now apply Hhead|].
      simpl in H.
      repeat (destruct H as [H|H]; [discriminate|]).
      apply in_app_or in H as [H|H].
      * exfalso. unfold count_event in Hmk.
        assert (Hin : In (MakeDirs dir) (filter is_makedirs t))
          by (apply filter_In; now split).
        destruct (filter is_makedirs t); [contradiction|discriminate].
      * simpl in H. intuition discriminate.
Qed.

(** X7. The progress bar advances once for each file written, in every
    call; the total it was given is the estimate of line 61. *)
Theorem X7_progress_updates {Frame : Type} (w : World Frame)
    (video_path output_dir : string) (frame_interval : Z)
    (target_fps : option float) (max_frames : option Z) (jpg_quality : Z) :
  let r := extract_frames w video_path output_dir frame_interval target_fps
                          max_frames jpg_quality in
  count_event is_pbar_update (snd r) = List.length (written (snd r))
  /\ (fst r = Ok true ->
        exists cap fi,
          videos w video_path = Some cap
          /\ actual_frame_interval (CAP_PROP_FPS cap) frame_interval
                                   target_fps = Ok fi
          /\ In (Tqdm (capped max_frames (CAP_PROP_FRAME_COUNT cap / fi)))
                (snd r)).
Proof.
  intros r.
  pose proof (extract_frames_run_spec w video_path output_dir frame_interval
                target_fps max_frames jpg_quality) as Hrun.
  fold r in Hrun.
  destruct Hrun as [Hne|He Hd Hnone|cap e' He Hd Hv Hdur
                    |cap s e' He Hd Hv Hdur Hi|cap s He Hd Hv Hdur Hi
                    |cap s k l t He Hd Hv Hdur Hi Hk Hl|e' He Hd Hmk].
  7:{ split; [|discriminate]. cbn [snd].
      rewrite written_makedirs_trace. static_counts. }
  - split; [reflexivity|discriminate].
  - split; [|discriminate]. cbn [snd].
    rewrite written_app, written_head_trace. static_counts.
  - split; [|discriminate]. cbn [snd].
    rewrite written_app, written_head_trace. static_counts.
  - split; [|discriminate]. cbn [snd].
    rewrite !written_app, written_head_trace. static_counts.
  - split; [|discriminate]. cbn [snd].
    rewrite !written_app, written_head_trace. static_counts.
  - destruct (while_loop_counts _ _ _ _ _ _ _ _ Hl)
      as (_ & _ & _ & _ & _ & Hupd).
    split.
    + cbn [snd]. rewrite written_loop_shape, !count_event_app, Hupd.
      static_counts; simpl; lia.
    + intros _. exists cap, k. split; [assumption|]. split; [assumption|].
      cbn [snd]. apply in_or_app. right. apply in_or_app. right.
      apply in_or_app. right. apply in_or_app. left.
      unfold settings_trace. simpl. tauto.
Qed.

(** Ten frames at interval three: the bar is given a total of three and
    advanced four times. *)
Example progress_overshoots :
  let r := extract_frames (Sample.world 10 Sample.fps30) "video.avi" "out"
                          3 None None 95 in
  In (Tqdm 3) (snd r) /\ count_event is_pbar_update (snd r) = 4%nat.
Proof. split; [vm_compute; tauto|reflexivity]. Qed.


(** ** Edge values of the frame rates *)

(** X8. A negative [target_fps] against a positive frame rate overrides
    the interval too: the interval used, when [int()] yields one, is 1,
    whatever [frame_interval] was passed, and the call is the call with
    interval 1 and no [target_fps]. *)
Theorem X8_negative_target_fps {Frame : Type} (w : World Frame)
    (video_path output_dir : string) (frame_interval : Z)
    (max_frames : option Z) (jpg_quality : Z) (cap : Video Frame)
    (target : float) (fi : Z) :
  videos w video_path = Some cap ->
  PyFloat.ltb target PyFloat.zero = true ->
  PyFloat.ltb PyFloat.zero (CAP_PROP_FPS cap) = true ->
  actual_frame_interval (CAP_PROP_FPS cap) frame_interval (Some target)
    = Ok fi ->
  fi = 1
  /\ extract_frames w video_path output_dir frame_interval (Some target)
                    max_frames jpg_quality
     = extract_frames w video_path output_dir 1 None max_frames jpg_quality.
Proof.
  intros Hvid Hneg Hpos Hact.
  assert (Hfi : fi = 1)
    by exact (negative_target_interval _ _ _ _ Hneg Hpos Hact).
  split; [exact Hfi|]. subst fi.
  apply extract_frames_interval.
  intros cap' Hcap'. rewrite Hvid in Hcap'. injection Hcap' as <-.
  now rewrite Hact.
Qed.

(** X8 at a target of minus five against 30 frames per second. *)
Lemma X8_negative_target_fps_witness :
  let w := Sample.world 10 Sample.fps30 in
  let cap := Sample.clip 10 Sample.fps30 in
  let target := PyFloat.of_Z (-5) in
  (videos w "video.avi" = Some cap
   /\ PyFloat.ltb target PyFloat.zero = true
   /\ PyFloat.ltb PyFloat.zero (CAP_PROP_FPS cap) = true
   /\ actual_frame_interval (CAP_PROP_FPS cap) 7 (Some target) = Ok 1)
  /\ 1 = 1
  /\ extract_frames w "video.avi" "out" 7 (Some target) None 95
     = extract_frames w "video.avi" "out" 1 None None 95.
Proof.
  split.
  - repeat split; reflexivity.
  - apply (X8_negative_target_fps (Sample.world 10 Sample.fps30)
             "video.avi" "out" 7 None 95 (Sample.clip 10 Sample.fps30)
             (PyFloat.of_Z (-5)) 1);
      reflexivity.
Defined.



(** ** [extract_by_time_intervals], continued *)



(** X11. [extract_by_time_intervals] never releases the capture it opens
    itself: whenever the video opens, its calls hold more
    [cv2.VideoCapture] than [cap.release()]; a call that returns [True]
    has opened two captures and released one. *)
Theorem X11_time_intervals_leak {Frame : Type} (w : World Frame)
    (video_path output_dir : string) (interval_seconds : number)
    (jpg_quality : Z) (cap : Video Frame) :
  videos w video_path = Some cap ->
  let r := extract_by_time_intervals w video_path output_dir
                                     interval_seconds jpg_quality in
  (count_event is_release (snd r) < count_event is_open (snd r))%nat
  /\ (fst r = Ok true ->
        count_event is_open (snd r) = 2%nat
        /\ count_event is_release (snd r) = 1%nat).
Proof.
  intros Hv r. subst r.
  destruct (py_mul_float (CAP_PROP_FPS cap) interval_seconds) as [x|e]
    eqn:Hx.
  - destruct (py_int x) as [n|e] eqn:Hn.
    + rewrite (extract_by_time_intervals_run w video_path output_dir
                 interval_seconds jpg_quality cap x n Hv Hx Hn).
      cbn [fst snd].
      destruct (extract_frames_release_le_open w video_path output_dir
                  (Z.max 1 n) None None jpg_quality) as (Hle & Htrue).
      change (VideoCapture video_path :: ?t)
        with ([VideoCapture video_path] ++ t).
      rewrite !count_event_app. split.
      * unfold count_event at 1 3. simpl. lia.
      * intros Hok. destruct (Htrue Hok) as (-> & ->). now split.
    + unfold extract_by_time_intervals. rewrite Hv, Hx.
      cbn [bind emit lift]. rewrite Hn. cbn [bind emit lift fst snd].
      split; [unfold count_event; simpl; lia|discriminate].
  - unfold extract_by_time_intervals. rewrite Hv, Hx.
    cbn [bind emit lift fst snd].
    split; [unfold count_event; simpl; lia|discriminate].
Qed.

(** X11 on a clip of four frames at one second. *)
Lemma X11_time_intervals_leak_witness :
  let w := Sample.world 4 Sample.fps30 in
  let r := extract_by_time_intervals w "video.avi" "out" (PyInt 1) 95 in
  videos w "video.avi" = Some (Sample.clip 4 Sample.fps30)
  /\ fst r = Ok true
  /\ count_event is_open (snd r) = 2%nat
  /\ count_event is_release (snd r) = 1%nat.
Proof.
  assert (Hv : videos (Sample.world 4 Sample.fps30) "video.avi"
               = Some (Sample.clip 4 Sample.fps30)) by reflexivity.
  destruct (X11_time_intervals_leak (Sample.world 4 Sample.fps30)
              "video.avi" "out" (PyInt 1) 95 (Sample.clip 4 Sample.fps30)
              Hv) as (_ & Htrue).
  split; [exact Hv|]. split; [reflexivity|]. apply Htrue. reflexivity.
Defined.

(** ** The printed report *)



(** ** The command line and the script *)

(** X13. [main] with only the video given on the command line saves
    every frame the capture decodes, in order, as
    [jpg_frames/frame_{i:06d}.jpg] at quality 95, when the video file
    exists and opens with a frame rate that is not zero ([total_frames]
    converts to a float, as every [int()] of a double does). [main] does
    not pass the outcome on: for a missing video file it prints the error
    and returns like after a success. *)
Theorem X13_main_defaults {Frame : Type} (w : World Frame) (path : string) :
  let r := Cli.main w (Cli.defaults path) in
  (path_exists w path = false ->
     r = (Ok tt, [Print (ErrNotFound path)]))
  /\ forall cap,
       path_exists w path = true ->
       videos w path = Some cap ->
       representable (CAP_PROP_FRAME_COUNT cap) = true ->
       PyFloat.truthy (CAP_PROP_FPS cap) = true ->
       fst r = Ok tt
       /\ written_frames (snd r) = frames cap
       /\ written_paths (snd r)
          = sequential_paths "jpg_frames" 0 (List.length (frames cap))
       /\ Forall (fun q => q = 95) (written_qualities (snd r)).
Proof.
  intros r. subst r.
  destruct (main_run w (Cli.defaults path)) as (Hsnd & Hfst).
  cbn [Cli.defaults Cli.video_path Cli.output Cli.interval Cli.fps
       Cli.max_frames Cli.quality] in Hsnd, Hfst.
  split.
  - intros Hne. rewrite (extract_frames_missing w path "jpg_frames" 1 None
                           None 95 Hne) in Hsnd, Hfst.
    destruct (Cli.main w (Cli.defaults path)) as [res t].
    cbn [fst snd] in Hsnd, Hfst. now subst.
  - intros cap He Hv Hrep Hfps.
    destruct (extract_frames_written_frames w path "jpg_frames" 1 None None
                95 cap 1 He eq_refl Hv Hrep Hfps eq_refl ltac:(lia))
      as (Hres & Hframes).
    rewrite Hsnd, Hfst, Hres. split; [reflexivity|].
    assert (Hall : written_frames
                     (snd (extract_frames w path "jpg_frames" 1 None None
                                          95)) = frames cap).
    { rewrite Hframes. apply select_from_one. }
    split; [exact Hall|]. split.
    + rewrite extract_frames_paths. f_equal.
      rewrite <- Hall. unfold written_frames. now rewrite length_map.
    + apply (extract_frames_qualities w path "jpg_frames" 1 None None 95).
Qed.

(** X13 on a clip of three frames, and on a missing file. *)
Lemma X13_main_defaults_witness :
  let w := Sample.world 3 Sample.fps30 in
  (path_exists w "absent.avi" = false
   /\ Cli.main w (Cli.defaults "absent.avi")
      = (Ok tt, [Print (ErrNotFound "absent.avi")]))
  /\ (path_exists w "video.avi" = true
      /\ written_frames (snd (Cli.main w (Cli.defaults "video.avi")))
         = [0; 1; 2]%nat
      /\ written_paths (snd (Cli.main w (Cli.defaults "video.avi")))
         = ["jpg_frames/frame_000000.jpg"; "jpg_frames/frame_000001.jpg";
            "jpg_frames/frame_000002.jpg"]).
Proof.
  destruct (X13_main_defaults (Sample.world 3 Sample.fps30) "absent.avi")
    as (Hmissing & _).
  destruct (X13_main_defaults (Sample.world 3 Sample.fps30) "video.avi")
    as (_ & Hgood).
  destruct (Hgood (Sample.clip 3 Sample.fps30) eq_refl eq_refl eq_refl
              eq_refl) as (_ & Hframes & Hpaths & _).
  split.
  - split; [reflexivity|]. apply Hmissing. reflexivity.
  - split; [reflexivity|]. split; [exact Hframes|exact Hpaths].
Defined.

(** X14. Run as a script, the file does not read the command line: it
    extracts from the one video it names, at most 17 frames, at quality
    90. When that video exists and opens with a frame rate that is not
    zero, the files hold its first 17 frames (all of them if it is
    shorter), as [jpg_frames_limited/frame_{i:06d}.jpg] ([total_frames]
    converts to a float, as every [int()] of a double does). *)
Theorem X14_script_run {Frame : Type} (w : World Frame) :
  let r := Cli.script w in
  let video := "Video_20251103164935468.avi" in
  (List.length (written (snd r)) <= 17)%nat
  /\ Forall (fun q => q = 90) (written_qualities (snd r))
  /\ written_paths (snd r)
     = sequential_paths "jpg_frames_limited" 0
         (List.length (written (snd r)))
  /\ forall cap,
       path_exists w video = true ->
       videos w video = Some cap ->
       representable (CAP_PROP_FRAME_COUNT cap) = true ->
       PyFloat.truthy (CAP_PROP_FPS cap) = true ->
       fst r = Ok tt /\ written_frames (snd r) = firstn 17 (frames cap).
Proof.
  intros r video. subst r.
  assert (Hsnd : snd (Cli.script w)
                 = snd (extract_frames w video "jpg_frames_limited" 1 None
                                       (Some 17) 90)
                 /\ (fst (extract_frames w video "jpg_frames_limited" 1 None
                                         (Some 17) 90) = Ok true ->
                     fst (Cli.script w) = Ok tt)).
  { unfold Cli.script. fold video.
    destruct (extract_frames _ _ _ _ _ _ _) as [[b|e] t]; simpl;
      rewrite ?List.app_nil_r; split; try reflexivity; discriminate. }
  destruct Hsnd as (Hsnd & Hfst). rewrite Hsnd.
  split; [|split; [|split]].
  - pose proof (extract_frames_run_spec w video "jpg_frames_limited" 1 None
                  (Some 17) 90) as Hrun.
    assert (H17 : 17 <> 0) by lia.
    apply (run_spec_without_limit _ _ _ _ _ _ _ _ H17) in Hrun
      as (r' & _ & _ & Hw).
    rewrite Hw. etransitivity; [apply firstn_le_length|]. lia.
  - apply (extract_frames_qualities w video "jpg_frames_limited" 1 None
             (Some 17) 90).
  - apply extract_frames_paths.
  - intros cap He Hv Hrep Hfps.
    destruct (extract_frames_written_frames w video "jpg_frames_limited" 1
                None (Some 17) 90 cap 1 He eq_refl Hv Hrep Hfps eq_refl
                ltac:(lia)) as (Hres & Hframes).
    split; [now apply Hfst|].
    rewrite Hframes. unfold limited. simpl.
    now rewrite select_from_one.
Qed.

(** X14 on a video of twenty frames: seventeen files. *)
Lemma X14_script_run_witness :
  let w := Cli.script_world 20 Sample.fps30 in
  let cap := Sample.clip 20 Sample.fps30 in
  (path_exists w "Video_20251103164935468.avi" = true
   /\ videos w "Video_20251103164935468.avi" = Some cap
   /\ representable (CAP_PROP_FRAME_COUNT cap) = true
   /\ PyFloat.truthy (CAP_PROP_FPS cap) = true)
  /\ fst (Cli.script w) = Ok tt
  /\ written_frames (snd (Cli.script w)) = seq 0 17.
Proof.
  split.
  - repeat split; reflexivity.
  - destruct (X14_script_run (Cli.script_world 20 Sample.fps30))
      as (_ & _ & _ & Hgood).
    exact (Hgood (Sample.clip 20 Sample.fps30) eq_refl eq_refl eq_refl
             eq_refl).
Defined.

(** ** Two runs into one directory *)

(** X15. File names restart at [frame_000000.jpg] in every call and do
    not depend on the video: of two calls with the same output directory,
    the one that writes fewer files writes to paths the other writes to
    as well, so each overwrites files of the other. *)
Theorem X15_runs_share_paths {Frame : Type} (w1 w2 : World Frame)
    (output_dir video1 video2 : string) (k1 k2 : Z)
    (t1 t2 : option float) (m1 m2 : option Z) (q1 q2 : Z) :
  let r1 := extract_frames w1 video1 output_dir k1 t1 m1 q1 in
  let r2 := extract_frames w2 video2 output_dir k2 t2 m2 q2 in
  (List.length (written (snd r1)) <= List.length (written (snd r2)))%nat ->
  written_paths (snd r1)
  = firstn (List.length (written (snd r1))) (written_paths (snd r2)).
Proof.
  intros r1 r2 Hle. subst r1 r2.
  rewrite (extract_frames_paths w1), (extract_frames_paths w2).
  unfold sequential_paths.
  rewrite <- (firstn_count_from _ _ 0 Hle). symmetry. apply firstn_map.
Qed.

(** X15 on a clip of ten frames: every third frame, then every frame. *)
Lemma X15_runs_share_paths_witness :
  let w := Sample.world 10 Sample.fps30 in
  let r1 := extract_frames w "video.avi" "out" 3 None None 95 in
  let r2 := extract_frames w "video.avi" "out" 1 None None 50 in
  (List.length (written (snd r1)) <= List.length (written (snd r2)))%nat
  /\ written_paths (snd r1) = firstn 4 (written_paths (snd r2)).
Proof.
  assert (Hle : (List.length
                   (written
                      (snd (extract_frames (Sample.world 10 Sample.fps30)
                              "video.avi" "out" 3 None None 95)))
                 <= List.length
                      (written
                         (snd (extract_frames (Sample.world 10 Sample.fps30)
                                 "video.avi" "out" 1 None None 50))))%nat)
    by (vm_compute; lia).
  split; [exact Hle|].
  exact (X15_runs_share_paths (Sample.world 10 Sample.fps30)
           (Sample.world 10 Sample.fps30) "out" "video.avi" "video.avi"
           3 1 None None None None 95 50 Hle).
Defined.

(** ** The quality warning *)

(** X16. The quality warning is printed exactly when the video file
    exists and the quality is below 1 or above 100; a quality from 1 to
    100, bounds included, is the one every image is written with. *)
Theorem X16_quality_warning {Frame : Type} (w : World Frame)
    (video_path output_dir : string) (frame_interval : Z)
    (target_fps : option float) (max_frames : option Z) (jpg_quality : Z) :
  let r := extract_frames w video_path output_dir frame_interval target_fps
                          max_frames jpg_quality in
  (In WarnQuality (stdout (snd r))
   <-> path_exists w video_path = true
       /\ (jpg_quality < 1 \/ jpg_quality > 100))
  /\ (1 <= jpg_quality <= 100 ->
        Forall (fun q => q = jpg_quality) (written_qualities (snd r))).
Proof.
  intros r; subst r. split.
  - generalize (extract_frames_run_spec w video_path output_dir
                  frame_interval target_fps max_frames jpg_quality).
    generalize (extract_frames w video_path output_dir frame_interval
                  target_fps max_frames jpg_quality) as r.
    assert (Hout : (jpg_quality <? 1) || (jpg_quality >? 100) = true
                   <-> jpg_quality < 1 \/ jpg_quality > 100).
    { destruct (jpg_quality <? 1) eqn:E1; destruct (jpg_quality >? 100) eqn:E2;
        simpl; split; intros; try discriminate; try reflexivity; lia. }
    intros r H.
    destruct H as [He|He Hdir Hv|cap e He Hdir Hv Hd
                  |cap s e He Hdir Hv Hd Hi|cap s He Hdir Hv Hd Hi
                  |cap s k l t He Hdir Hv Hd Hi Hk Hloop|e He Hdir Hmk];
      [split; [simpl; intuition discriminate|intros [He' _]; congruence]|..].
    6:{ cbn [snd]. unfold makedirs_trace. rewrite stdout_app, in_app_iff.
        destruct ((jpg_quality <? 1) || (jpg_quality >? 100)); simpl;
          intuition (try discriminate; try congruence). }
    5:{ assert (Ht : stdout t = []).
        { pose proof (while_loop_trace output_dir k max_frames
                        (effective_quality jpg_quality) (frames cap) start)
            as Htr.
          rewrite Hloop in Htr. simpl in Htr. rewrite Htr.
          apply stdout_saves. }
        cbn [snd]. unfold info_trace, format_trace, settings_trace,
          footer_trace.
        repeat rewrite stdout_app. rewrite Ht, stdout_head_trace.
        rewrite in_app_iff.
        destruct ((jpg_quality <? 1) || (jpg_quality >? 100)); simpl;
          intuition (try discriminate; try congruence). }
    all: cbn [snd]; unfold info_trace, format_trace;
      repeat rewrite stdout_app; rewrite stdout_head_trace;
      rewrite in_app_iff;
      destruct ((jpg_quality <? 1) || (jpg_quality >? 100)); simpl;
      intuition (try discriminate; try congruence).
  - intros Hq.
    pose proof (extract_frames_qualities w video_path output_dir
                  frame_interval target_fps max_frames jpg_quality) as H.
    replace (effective_quality jpg_quality) with jpg_quality in H;
      [exact H|].
    unfold effective_quality.
    destruct (jpg_quality <? 1) eqn:E1; destruct (jpg_quality >? 100) eqn:E2;
      simpl; lia.
Qed.

(** X16 at quality 0, which is warned about, and at quality 50, which is
    used as given. *)
Lemma X16_quality_warning_witness :
  let w := Sample.world 10 Sample.fps30 in
  In WarnQuality
     (stdout (snd (extract_frames w "video.avi" "out" 3 None None 0)))
  /\ Forall (fun q => q = 50)
            (written_qualities
               (snd (extract_frames w "video.avi" "out" 3 None None 50))).
Proof.
  split.
  - apply (proj1 (X16_quality_warning (Sample.world 10 Sample.fps30)
                    "video.avi" "out" 3 None None 0)).
    split; [reflexivity|lia].
  - apply (proj2 (X16_quality_warning (Sample.world 10 Sample.fps30)
                    "video.avi" "out" 3 None None 50)).
    lia.
Defined.

(** ** A frame rate of zero under [extract_by_time_intervals] *)



(** ** What the header's frame count is used for *)



(** ** Further runs on the sample clip *)

(** X6 where the output directory is missing: it is created once. *)
Lemma X6_directory_creation_witness :
  let w := Sample.world 10 Sample.fps30 in
  let r := extract_frames w "video.avi" "out" 3 None None 95 in
  count_event is_makedirs (snd r) = 1%nat
  /\ forall dir, In (MakeDirs dir) (snd r) -> dir = "out".
Proof.
  exact (X6_directory_creation (Sample.world 10 Sample.fps30) "video.avi"
           "out" 3 None None 95).
Defined.

(** X7 on ten frames at interval 3: four updates of a bar announced with
    a total of three. *)
Lemma X7_progress_updates_witness :
  let w := Sample.world 10 Sample.fps30 in
  let r := extract_frames w "video.avi" "out" 3 None None 95 in
  fst r = Ok true
  /\ count_event is_pbar_update (snd r) = 4%nat
  /\ exists cap fi,
       videos w "video.avi" = Some cap
       /\ actual_frame_interval (CAP_PROP_FPS cap) 3 None = Ok fi
       /\ In (Tqdm (capped None (CAP_PROP_FRAME_COUNT cap / fi))) (snd r).
Proof.
  destruct (X7_progress_updates (Sample.world 10 Sample.fps30) "video.avi"
              "out" 3 None None 95) as (Hcount & Htotal).
  split; [reflexivity|]. split; [exact Hcount|].
  apply Htotal. reflexivity.
Defined.
